(** * cli-ai-agent: the agent orchestration engine

    A shallow embedding of the agent's [package main], in the revision
    with the progress spinner and the [Allow? (Y/n)] prompt: the
    conversation store, the streaming decoder, the permission gate and the
    agentic loop ([Agent.RegisterTool], [Agent.getToolDefinitions],
    [Agent.askPermission], [Agent.ProcessMessage],
    [Agent.processOneResponse], [readInput]).

    Go values are modelled as follows.
    - [string]                      : [string] (a sequence of bytes);
    - [error]                       : [option string], the message of a
                                      non-nil error;
    - [map[string]interface{}]      : [gmap string JValue];
    - [map[string]Tool]             : [gmap string Tool.t];
    - [[]Message], [[]ToolCall]     : [list];
    - the receiver [*Agent]         : an [Agent.t] value threaded through;
    - everything outside the process (standard input, the tools' file
      system and processes, the terminal) : a [World.t] threaded through,
      whose [trace] records the effects in the order they happen;
    - standard input : the strings the successive calls of [readInput]
      are going to return, see [World.stdin].                             *)

From Stdlib Require Import Ascii String.
From stdpp Require Import base gmap strings list fin_maps.

Local Open Scope string_scope.
Local Open Scope list_scope.
Local Set Warnings "-register-all".

(** ** Data model *)

(** A decoded JSON value, the dynamic content of an [interface{}]. *)
Inductive JValue : Type :=
| JNull
| JBool (b : bool)
| JNumber (z : Z)
| JString (s : string)
| JArray (items : list JValue)
| JObject (fields : list (string * JValue)).

(** [map[string]interface{}] *)
Abbreviation Params := (gmap string JValue).

(** [type ToolFunction struct] *)
Module ToolFunction.
Record t : Type := mk {
  Name : string;
  Description : string;
  Parameters : Params;
  Arguments : Params
}.
End ToolFunction.

(** [type ToolCall struct]; the field [Type] is spelled [Type_]. *)
Module ToolCall.
Record t : Type := mk {
  Type_ : string;
  Function : ToolFunction.t
}.
End ToolCall.

(** [type Message struct] *)
Module Message.
Record t : Type := mk {
  Role : string;
  Content : string;
  Thinking : string;
  ToolCalls : list ToolCall.t
}.

(** The zero value of [var finalMessage Message]. *)
Definition zero : t := mk "" "" "" [].
End Message.

(** [type OllamaRequest struct] *)
Module OllamaRequest.
Record t : Type := mk {
  Model : string;
  Stream : bool;
  Tools : list ToolCall.t;
  Messages : list Message.t
}.
End OllamaRequest.

(** [type OllamaResponse struct] *)
Module OllamaResponse.
Record t : Type := mk {
  Model : string;
  CreatedAt : string;
  Message : Message.t;
  Done : bool
}.
End OllamaResponse.

(** [type Tool interface].  [W] is the state of what the tools act on (the
    file system, child processes); [Execute] returns Go's pair
    [(string, error)] and the new state. *)
Module Tool.
Record t (W : Type) : Type := mk {
  Name : string;
  Description : string;
  Parameters : Params;
  Execute : Params -> W -> (string * option string) * W;
  RequiresPermission : bool
}.
Arguments mk {W}.
Arguments Name {W}.
Arguments Description {W}.
Arguments Parameters {W}.
Arguments Execute {W}.
Arguments RequiresPermission {W}.
End Tool.

(** [type Agent struct] *)
Module Agent.
Record t (W : Type) : Type := mk {
  model : string;
  ollamaURL : string;
  tools : gmap string (Tool.t W);
  conversation : list Message.t
}.
Arguments mk {W}.
Arguments model {W}.
Arguments ollamaURL {W}.
Arguments tools {W}.
Arguments conversation {W}.
End Agent.

(** ** The surroundings of the engine *)

(** Go's [(T, error)] where exactly one of the two is meaningful. *)
Inductive result (A : Type) : Type :=
| Ok (a : A)
| Err (msg : string).
Arguments Ok {A}.
Arguments Err {A}.

(** [*http.Request], as far as the engine fills it in. *)
Module Request.
Record t : Type := mk {
  Method : string;
  URL : string;
  Body : string
}.
End Request.

(** What [bufio.Scanner] shows of a response body: the lines [Scan]
    delivers one after the other and, for each of them, what [Err()] would
    answer if asked right after it (a read error can already be recorded
    while buffered lines are still being handed out); [ErrAtEnd] is what
    [Err()] answers once [Scan] has returned false. *)
Module Scanner.
Record token : Type := mkToken {
  Text : string;
  ErrPending : option string
}.
Record t : Type := mk {
  Tokens : list token;
  ErrAtEnd : option string
}.
End Scanner.

(** The functions of Go's standard library that the engine calls and that
    are not part of the repository. *)
Record GoLib : Type := mkGoLib {
  json_MarshalIndent : OllamaRequest.t -> result string;
  json_Unmarshal : string -> result OllamaResponse.t;
  http_NewRequest : string -> string -> string -> result Request.t;
  strings_ToLower : string -> string;
  strings_TrimSpace : string -> string
}.

(** The effects of the engine, in the order they happen.  Text that is only
    displayed ([fmt.Print] of the streamed reasoning and content, of the
    separators and of a tool's result) is left out; the prompt of
    [askPermission] is the single event [Ask]. *)
Inductive Event : Type :=
| SpinnerStart
| SpinnerStop
| HttpDo (request : Request.t)
| Log (msg : string)
| Ask (toolName : string) (params : Params)
| Exec (toolName : string) (params : Params)
| Continuing (iteration maxIterations : nat).

(** Everything outside the agent: the effects so far, the state the tools
    act on, and standard input as the program meets it.  [stdin] lists the
    strings that the calls of [readInput] still to come will return, one
    per call, up to the end of the input.  On a terminal these are the
    lines the operator types.  When standard input is a pipe or a file
    they are fewer than its lines: every call makes its own
    [bufio.Scanner], whose first read takes a block of the input, and what
    follows the first line in that block is lost with the scanner; [stdin]
    then holds only the strings that do come back from a call. *)
Module World.
Record t (W : Type) : Type := mk {
  stdin : list string;
  trace : list Event;
  sys : W
}.
Arguments mk {W}.
Arguments stdin {W}.
Arguments trace {W}.
Arguments sys {W}.
End World.

(** What the surroundings decide during one round-trip: the order in which
    the runtime ranges over the [tools] map, and the endpoint's answer to
    [http.DefaultClient.Do]. *)
Module Round.
Record t (W : Type) : Type := mk {
  range : list (string * Tool.t W) -> list (string * Tool.t W);
  Do : Request.t -> result Scanner.t
}.
Arguments mk {W}.
Arguments range {W}.
Arguments Do {W}.
End Round.

(** Go leaves the order of [for ... range] over a map unspecified, also
    between two loops over the same map: every entry is visited once, in an
    order of the runtime's choosing. *)
Definition range_order {W : Type} (range : list (string * Tool.t W) -> list (string * Tool.t W)) : Prop :=
  forall entries, range entries ≡ₚ entries.

(** The variables of the tool loop in [processOneResponse], with the
    receiver and the surroundings. *)
Module Dispatch.
Record t (W : Type) : Type := mk {
  toolsExecuted : nat;
  anyToolRequiredPermission : bool;
  agent : Agent.t W;
  world : World.t W
}.
Arguments mk {W}.
Arguments toolsExecuted {W}.
Arguments anyToolRequiredPermission {W}.
Arguments agent {W}.
Arguments world {W}.
End Dispatch.

(** ** The engine *)

Section Engine.
Context {W : Type}.
Variable lib : GoLib.

Definition emit (e : Event) (w : World.t W) : World.t W :=
  World.mk (World.stdin w) (World.trace w ++ [e]) (World.sys w).

(** [this.conversation = append(this.conversation, m)] *)
Definition appendMessage (m : Message.t) (a : Agent.t W) : Agent.t W :=
  Agent.mk (Agent.model a) (Agent.ollamaURL a) (Agent.tools a) (Agent.conversation a ++ [m]).

Definition NewAgent (model ollamaURL : string) : Agent.t W :=
  Agent.mk model ollamaURL ∅ [].

Definition RegisterTool (tool : Tool.t W) (a : Agent.t W) : Agent.t W :=
  Agent.mk (Agent.model a) (Agent.ollamaURL a)
    (<[Tool.Name tool := tool]> (Agent.tools a)) (Agent.conversation a).

(** The element appended for one tool in [getToolDefinitions]. *)
Definition toolDefinition (tool : Tool.t W) : ToolCall.t :=
  ToolCall.mk "function"
    (ToolFunction.mk (Tool.Name tool) (Tool.Description tool) (Tool.Parameters tool) ∅).

Definition getToolDefinitions (range : list (string * Tool.t W) -> list (string * Tool.t W))
    (a : Agent.t W) : list ToolCall.t :=
  (fun entry => toolDefinition entry.2) <$> range (map_to_list (Agent.tools a)).

(** [readInput]: one [Scan] of a new scanner on standard input and its
    [Text]: the next of the strings of [World.stdin]; when the input has
    ended [Scan] fails and [Text] is the empty string. *)
Definition readInput (w : World.t W) : string * World.t W :=
  match World.stdin w with
  | [] => ("", w)
  | line :: rest => (line, World.mk rest (World.trace w) (World.sys w))
  end.

Definition askPermission (toolName : string) (params : Params) (w : World.t W) : bool * World.t W :=
  let w := emit (Ask toolName params) w in
  let '(input, w) := readInput w in
  let response := strings_TrimSpace lib (strings_ToLower lib input) in
  (String.eqb response "" || String.eqb response "y" || String.eqb response "yes", w).

(** One parsed chunk folded into [finalMessage]. *)
Definition accumulate (finalMessage : Message.t) (chunk : OllamaResponse.t) : Message.t :=
  let m := OllamaResponse.Message chunk in
  Message.mk
    (if String.eqb (Message.Role m) "" then Message.Role finalMessage else Message.Role m)
    (if String.eqb (Message.Content m) "" then Message.Content finalMessage
     else Message.Content finalMessage +:+ Message.Content m)
    (if String.eqb (Message.Thinking m) "" then Message.Thinking finalMessage
     else Message.Thinking finalMessage +:+ Message.Thinking m)
    (if Nat.ltb 0 (length (Message.ToolCalls m)) then Message.ToolCalls m
     else Message.ToolCalls finalMessage).

(** The loop [for scanner.Scan() { ... }], followed by [scanner.Err()]:
    the accumulated message, the error [Err()] reports, the surroundings. *)
Fixpoint scanLoop (tokens : list Scanner.token) (errAtEnd : option string)
    (finalMessage : Message.t) (w : World.t W) : Message.t * option string * World.t W :=
  match tokens with
  | [] => (finalMessage, errAtEnd, w)
  | tok :: rest =>
      let w := emit SpinnerStop w in
      let line := Scanner.Text tok in
      if String.eqb line "" then scanLoop rest errAtEnd finalMessage w
      else
        match json_Unmarshal lib line with
        | Err err =>
            scanLoop rest errAtEnd finalMessage (emit (Log ("Error parsing chunk: " +:+ err)) w)
        | Ok chunk =>
            let finalMessage := accumulate finalMessage chunk in
            if OllamaResponse.Done chunk then (finalMessage, Scanner.ErrPending tok, w)
            else scanLoop rest errAtEnd finalMessage w
        end
  end.

(** [result, err := tool.Execute(...); if err != nil { result =
    fmt.Sprintf("Error: %v", err) }] *)
Definition resultText (outcome : string * option string) : string :=
  match outcome.2 with
  | Some e => "Error: " +:+ e
  | None => outcome.1
  end.

(** The body of [for _, toolCall := range finalMessage.ToolCalls]. *)
Definition toolStep (s : Dispatch.t W) (toolCall : ToolCall.t) : Dispatch.t W :=
  let toolName := ToolFunction.Name (ToolCall.Function toolCall) in
  let arguments := ToolFunction.Arguments (ToolCall.Function toolCall) in
  match Agent.tools (Dispatch.agent s) !! toolName with
  | None =>
      Dispatch.mk (Dispatch.toolsExecuted s) (Dispatch.anyToolRequiredPermission s)
        (Dispatch.agent s)
        (emit (Log ("🤖 response refers to unknown tool: " +:+ toolName)) (Dispatch.world s))
  | Some tool =>
      let '(granted, anyRequired, w) :=
        if Tool.RequiresPermission tool
        then let '(granted, w) := askPermission toolName arguments (Dispatch.world s) in
             (granted, true, w)
        else (true, Dispatch.anyToolRequiredPermission s, Dispatch.world s) in
      if negb granted then
        Dispatch.mk (Dispatch.toolsExecuted s) anyRequired
          (appendMessage (Message.mk "tool" ("Permission denied for " +:+ toolName) "" [])
             (Dispatch.agent s))
          w
      else
        let w := emit (Exec toolName arguments) w in
        let '(outcome, sys) := Tool.Execute tool arguments (World.sys w) in
        Dispatch.mk (S (Dispatch.toolsExecuted s)) anyRequired
          (appendMessage (Message.mk "tool" (resultText outcome) "" []) (Dispatch.agent s))
          (World.mk (World.stdin w) (World.trace w) sys)
  end.

Definition toolLoop (toolCalls : list ToolCall.t) (s : Dispatch.t W) : Dispatch.t W :=
  foldl toolStep s toolCalls.

(** [processOneResponse] between [spinner.Start()] and the deferred
    [spinner.Stop()]. *)
Definition roundTrip (round : Round.t W) (a : Agent.t W) (w : World.t W)
    : (bool * option string) * Agent.t W * World.t W :=
  let req := OllamaRequest.mk (Agent.model a) true
               (getToolDefinitions (Round.range round) a) (Agent.conversation a) in
  match json_MarshalIndent lib req with
  | Err err => ((false, Some err), a, w)
  | Ok jsonData =>
      match http_NewRequest lib "POST" (Agent.ollamaURL a +:+ "/api/chat") jsonData with
      | Err err => ((false, Some err), a, w)
      | Ok request =>
          let w := emit (HttpDo request) w in
          match Round.Do round request with
          | Err err => ((false, Some err), a, w)
          | Ok body =>
              let '(finalMessage, scanErr, w) :=
                scanLoop (Scanner.Tokens body) (Scanner.ErrAtEnd body) Message.zero w in
              match scanErr with
              | Some err =>
                  ((false, Some ("error reading stream: " +:+ err)), a, emit SpinnerStop w)
              | None =>
                  let s := toolLoop (Message.ToolCalls finalMessage)
                             (Dispatch.mk 0 false (appendMessage finalMessage a) w) in
                  ((Nat.ltb 0 (Dispatch.toolsExecuted s)
                      && negb (Dispatch.anyToolRequiredPermission s), None),
                   Dispatch.agent s, Dispatch.world s)
              end
          end
      end
  end.

Definition processOneResponse (round : Round.t W) (a : Agent.t W) (w : World.t W)
    : (bool * option string) * Agent.t W * World.t W :=
  let '(ret, a, w) := roundTrip round a (emit SpinnerStart w) in
  (ret, a, emit SpinnerStop w).

Definition maxIterations : nat := 10.

(** [for iteration := 0; iteration < maxIterations; iteration++] with
    [remaining = maxIterations - iteration]; [rounds iteration] is what the
    surroundings do during that iteration. *)
Fixpoint agenticLoop (remaining iteration : nat) (rounds : nat -> Round.t W)
    (a : Agent.t W) (w : World.t W) : option string * Agent.t W * World.t W :=
  match remaining with
  | 0 => (None, a, w)
  | S remaining =>
      let '((shouldContinue, err), a, w) := processOneResponse (rounds iteration) a w in
      match err with
      | Some e => (Some e, a, w)
      | None =>
          if negb shouldContinue then (None, a, w)
          else agenticLoop remaining (S iteration) rounds a
                 (emit (Continuing (iteration + 2) maxIterations) w)
      end
  end.

Definition ProcessMessage (userMessage : string) (rounds : nat -> Round.t W)
    (a : Agent.t W) (w : World.t W) : option string * Agent.t W * World.t W :=
  agenticLoop maxIterations 0 rounds (appendMessage (Message.mk "user" userMessage "" []) a) w.

End Engine.

(** ** Observations on a trace *)

Definition isSpinnerStart (e : Event) : bool :=
  match e with SpinnerStart => true | _ => false end.

Definition isExec (e : Event) : bool :=
  match e with Exec _ _ => true | _ => false end.

Definition isContinuing (e : Event) : bool :=
  match e with Continuing _ _ => true | _ => false end.

(** How many events of a kind a trace holds. *)
Definition occurrences (kind : Event -> bool) (events : list Event) : nat :=
  length (List.filter kind events).

(** Round-trips started: [spinner.Start()] is the first effect of each. *)
Definition roundTrips (events : list Event) : nat := occurrences isSpinnerStart events.

(** Calls of some tool's [Execute]. *)
Definition executions (events : list Event) : nat := occurrences isExec events.

(** The name and the arguments of an invocation. *)
Definition toolNameOf (toolCall : ToolCall.t) : string :=
  ToolFunction.Name (ToolCall.Function toolCall).

Definition argumentsOf (toolCall : ToolCall.t) : Params :=
  ToolFunction.Arguments (ToolCall.Function toolCall).

(** The invocation names a registered tool. *)
Definition known {W : Type} (a : Agent.t W) (toolCall : ToolCall.t) : Prop :=
  is_Some (Agent.tools a !! toolNameOf toolCall).

#[global] Instance known_dec {W : Type} (a : Agent.t W) (toolCall : ToolCall.t) :
  Decision (known a toolCall).
Proof. unfold known. apply _. Defined.

(** The well-formed fragments of a stream, in order: the lines that are not
    empty and that [json.Unmarshal] accepts. *)
Definition fragments (lib : GoLib) (tokens : list Scanner.token) : list OllamaResponse.t :=
  omap (fun tok =>
          if String.eqb (Scanner.Text tok) "" then None
          else match json_Unmarshal lib (Scanner.Text tok) with
               | Ok chunk => Some chunk
               | Err _ => None
               end) tokens.

(** The strings of a list, one after the other. *)
Definition concatenation (parts : list string) : string :=
  foldr String.append "" parts.

Definition contentOf (chunk : OllamaResponse.t) : string :=
  Message.Content (OllamaResponse.Message chunk).

Definition thinkingOf (chunk : OllamaResponse.t) : string :=
  Message.Thinking (OllamaResponse.Message chunk).

(** The fragments the decoder reads: up to and including the first one
    whose [done] flag is set. *)
Fixpoint uptoDone (chunks : list OllamaResponse.t) : list OllamaResponse.t :=
  match chunks with
  | [] => []
  | chunk :: rest => if OllamaResponse.Done chunk then [chunk] else chunk :: uptoDone rest
  end.

(** A tool-role turn that answers an invocation: the denial marker of a
    tool that requires permission, or the text of an execution of the tool
    on these arguments. *)
Definition answers {W : Type} (a : Agent.t W) (toolCall : ToolCall.t) (turn : Message.t) : Prop :=
  Message.Role turn = "tool" /\
  exists tool, Agent.tools a !! toolNameOf toolCall = Some tool /\
    ((Tool.RequiresPermission tool = true /\
      Message.Content turn = "Permission denied for " +:+ toolNameOf toolCall) \/
     (exists sys, Message.Content turn
                  = resultText (Tool.Execute tool (argumentsOf toolCall) sys).1)).

(** Whether the invocation resolves to a tool that requires permission. *)
Definition sensitive {W : Type} (a : Agent.t W) (toolCall : ToolCall.t) : bool :=
  match Agent.tools a !! toolNameOf toolCall with
  | Some tool => Tool.RequiresPermission tool
  | None => false
  end.

(** The agent [a] with [turns] appended to its conversation. *)
Definition withTurns {W : Type} (a : Agent.t W) (turns : list Message.t) : Agent.t W :=
  Agent.mk (Agent.model a) (Agent.ollamaURL a) (Agent.tools a) (Agent.conversation a ++ turns).

(** The surroundings in which an invocation that goes ahead is executed:
    after the prompt when the tool requires permission. *)
Definition cleared {W : Type} (lib : GoLib) (s : Dispatch.t W) (toolCall : ToolCall.t)
    (tool : Tool.t W) : World.t W :=
  if Tool.RequiresPermission tool
  then (askPermission lib (toolNameOf toolCall) (argumentsOf toolCall) (Dispatch.world s)).2
  else Dispatch.world s.

(** The request [processOneResponse] builds. *)
Definition requestOf {W : Type} (round : Round.t W) (a : Agent.t W) : OllamaRequest.t :=
  OllamaRequest.mk (Agent.model a) true
    (getToolDefinitions (Round.range round) a) (Agent.conversation a).

(** A transport-level failure of a round-trip, with the error it raises:
    the request cannot be built, the endpoint cannot be reached, or
    reading the stream fails. *)
Inductive transportFailure {W : Type} (lib : GoLib) (round : Round.t W) (a : Agent.t W)
    : string -> Prop :=
| marshalFailed e :
    json_MarshalIndent lib (requestOf round a) = Err e ->
    transportFailure lib round a e
| constructionFailed jsonData e :
    json_MarshalIndent lib (requestOf round a) = Ok jsonData ->
    http_NewRequest lib "POST" (Agent.ollamaURL a +:+ "/api/chat") jsonData = Err e ->
    transportFailure lib round a e
| endpointUnreachable jsonData request e :
    json_MarshalIndent lib (requestOf round a) = Ok jsonData ->
    http_NewRequest lib "POST" (Agent.ollamaURL a +:+ "/api/chat") jsonData = Ok request ->
    Round.Do round request = Err e ->
    transportFailure lib round a e
| streamBroken jsonData request body (w : World.t W) e :
    json_MarshalIndent lib (requestOf round a) = Ok jsonData ->
    http_NewRequest lib "POST" (Agent.ollamaURL a +:+ "/api/chat") jsonData = Ok request ->
    Round.Do round request = Ok body ->
    (scanLoop lib (Scanner.Tokens body) (Scanner.ErrAtEnd body) Message.zero w).1.2 = Some e ->
    transportFailure lib round a ("error reading stream: " +:+ e).

(** ** A small installation to run the engine on *)

Module Fixture.

(** The ASCII part of [strings.ToLower] and [strings.TrimSpace]. *)
Definition lowerAscii (c : ascii) : ascii :=
  let n := nat_of_ascii c in
  if (65 <=? n)%nat && (n <=? 90)%nat then ascii_of_nat (n + 32) else c.

Fixpoint ToLower (s : string) : string :=
  match s with
  | EmptyString => EmptyString
  | String c rest => String (lowerAscii c) (ToLower rest)
  end.

Definition isSpace (c : ascii) : bool :=
  let n := nat_of_ascii c in
  (n =? 32)%nat || ((9 <=? n)%nat && (n <=? 13)%nat).

Fixpoint trimLeft (s : string) : string :=
  match s with
  | EmptyString => EmptyString
  | String c rest => if isSpace c then trimLeft rest else s
  end.

Fixpoint trimRight (s : string) : string :=
  match s with
  | EmptyString => EmptyString
  | String c rest =>
      let rest := trimRight rest in
      if isSpace c && String.eqb rest "" then EmptyString else String c rest
  end.

Definition TrimSpace (s : string) : string := trimRight (trimLeft s).

Definition call (name : string) : ToolCall.t :=
  ToolCall.mk "" (ToolFunction.mk name "" ∅ {[ "path" := JString "." ]}).

Definition chunk (role content thinking : string) (calls : list ToolCall.t) (done : bool)
    : OllamaResponse.t :=
  OllamaResponse.mk "mistral" "" (Message.mk role content thinking calls) done.

(** The lines the test endpoint can send, with what they decode to. *)
Definition wire : list (string * OllamaResponse.t) :=
  [ ("think:Let me", chunk "assistant" "" "Let me" [] false);
    ("think: see", chunk "" "" " see" [] false);
    ("say:Hel", chunk "assistant" "Hel" "" [] false);
    ("say:lo", chunk "" "lo" "" [] false);
    ("done", chunk "" "" "" [] true);
    ("say:!;done", chunk "" "!" "" [] true);
    ("call:list_directory;done", chunk "assistant" "" "" [call "list_directory"] true);
    ("call:read_file;done", chunk "assistant" "" "" [call "read_file"] true);
    ("call:run_shell_command;done", chunk "assistant" "" "" [call "run_shell_command"] true);
    ("call:format_disk;done", chunk "assistant" "" "" [call "format_disk"] true);
    ("call:list_directory,format_disk,run_shell_command;done",
     chunk "assistant" "" ""
       [call "list_directory"; call "format_disk"; call "run_shell_command"] true) ].

Definition Unmarshal (line : string) : result OllamaResponse.t :=
  match List.find (fun entry => String.eqb entry.1 line) wire with
  | Some entry => Ok entry.2
  | None => Err "invalid character"
  end.

Definition lib : GoLib :=
  mkGoLib (fun _ => Ok "{}")
          Unmarshal
          (fun method url body =>
             if String.prefix ":" url then Err "missing protocol scheme"
             else Ok (Request.mk method url body))
          ToLower TrimSpace.

(** The tools write their name into the system state when they run. *)
Definition listTool : Tool.t (list string) :=
  Tool.mk "list_directory" "List files" ∅
    (fun _ sys => (("a.txt", None), sys ++ ["list_directory"])) false.

Definition readTool : Tool.t (list string) :=
  Tool.mk "read_file" "Read a file" ∅
    (fun _ sys => (("", Some "open .: is a directory"), sys ++ ["read_file"])) false.

Definition shellTool : Tool.t (list string) :=
  Tool.mk "run_shell_command" "Run a command" ∅
    (fun _ sys => (("ok", None), sys ++ ["run_shell_command"])) true.

Definition agent : Agent.t (list string) :=
  RegisterTool shellTool (RegisterTool readTool (RegisterTool listTool
    (NewAgent "mistral" "http://localhost:11434"))).

Definition world (stdin : list string) : World.t (list string) := World.mk stdin [] [].

Definition line (text : string) : Scanner.token := Scanner.mkToken text None.

(** An endpoint that streams these lines and then ends the body. *)
Definition streaming (lines : list string) : Round.t (list string) :=
  Round.mk id (fun _ => Ok (Scanner.mk (line <$> lines) None)).

Definition unreachable : Round.t (list string) :=
  Round.mk id (fun _ => Err "connection refused").

(** An endpoint whose connection breaks after two lines. *)
Definition broken : Round.t (list string) :=
  Round.mk id (fun _ => Ok (Scanner.mk (line <$> ["say:Hel"; "say:lo"]) (Some "unexpected EOF"))).

(** A model that asks for a directory listing in every answer. *)
Definition listing : nat -> Round.t (list string) :=
  fun _ => streaming ["call:list_directory;done"].

(** The state of the tool loop at its start, the operator's lines given. *)
Definition dispatch (stdin : list string) : Dispatch.t (list string) :=
  Dispatch.mk 0 false agent (world stdin).



(** One user message to the model that never stops asking for listings. *)
Definition runaway : option string * Agent.t (list string) * World.t (list string) :=
  ProcessMessage lib "list files in ." listing agent (world []).

(** A stream with an empty line, a malformed line and a line after the
    terminal fragment. *)
Definition chatter : list Scanner.token :=
  line <$> ["think:Let me"; ""; "garbage"; "say:Hel"; "think: see"; "say:lo"; "say:!;done"; "say:lo"].

End Fixture.

(** ** Properties *)

Section Properties.
Context {W : Type}.
Variable lib : GoLib.

Implicit Types (a : Agent.t W) (w : World.t W) (s : Dispatch.t W).
Implicit Types (toolCall : ToolCall.t) (events : list Event).

Lemma occurrences_app kind events1 events2 :
  occurrences kind (events1 ++ events2) = occurrences kind events1 + occurrences kind events2.
Proof. unfold occurrences. by rewrite List.filter_app, length_app. Qed.

Lemma occurrences_cons kind e events :
  occurrences kind (e :: events) = (if kind e then 1 else 0) + occurrences kind events.
Proof. unfold occurrences. simpl. by destruct (kind e). Qed.

Lemma withTurns_nil a : withTurns a [] = a.
Proof. destruct a. unfold withTurns. simpl. by rewrite app_nil_r. Qed.

Lemma withTurns_app a turns1 turns2 :
  withTurns (withTurns a turns1) turns2 = withTurns a (turns1 ++ turns2).
Proof. unfold withTurns. simpl. by rewrite app_assoc. Qed.

Lemma appendMessage_withTurns a m : appendMessage m a = withTurns a [m].
Proof. reflexivity. Qed.

Lemma askPermission_trace toolName params w :
  World.trace (askPermission lib toolName params w).2 = World.trace w ++ [Ask toolName params].
Proof. unfold askPermission, readInput. simpl. by destruct (World.stdin w). Qed.

Lemma askPermission_sys toolName params w :
  World.sys (askPermission lib toolName params w).2 = World.sys w.
Proof. unfold askPermission, readInput. simpl. by destruct (World.stdin w). Qed.

Lemma filter_known_one a toolCall :
  filter (known a) [toolCall]
  = match Agent.tools a !! toolNameOf toolCall with Some _ => [toolCall] | None => [] end.
Proof.
  rewrite filter_cons, filter_nil. unfold known.
  destruct (decide (is_Some (Agent.tools a !! toolNameOf toolCall))) as [[tool Hsome]|Hnone].
  - by rewrite Hsome.
  - destruct (Agent.tools a !! toolNameOf toolCall); [|done]. exfalso. eauto.
Qed.

(** The three ways through the body of the tool loop. *)
Lemma toolStep_unknown s toolCall :
  Agent.tools (Dispatch.agent s) !! toolNameOf toolCall = None ->
  toolStep lib s toolCall
  = Dispatch.mk (Dispatch.toolsExecuted s) (Dispatch.anyToolRequiredPermission s)
      (Dispatch.agent s)
      (emit (Log ("🤖 response refers to unknown tool: " +:+ toolNameOf toolCall)) (Dispatch.world s)).
Proof. intros Hlookup. unfold toolStep. fold (toolNameOf toolCall). by rewrite Hlookup. Qed.

Lemma toolStep_denied s toolCall tool :
  Agent.tools (Dispatch.agent s) !! toolNameOf toolCall = Some tool ->
  Tool.RequiresPermission tool = true ->
  (askPermission lib (toolNameOf toolCall) (argumentsOf toolCall) (Dispatch.world s)).1 = false ->
  toolStep lib s toolCall
  = Dispatch.mk (Dispatch.toolsExecuted s) true
      (appendMessage
         (Message.mk "tool" ("Permission denied for " +:+ toolNameOf toolCall) "" [])
         (Dispatch.agent s))
      (askPermission lib (toolNameOf toolCall) (argumentsOf toolCall) (Dispatch.world s)).2.
Proof.
  intros Hlookup Hperm Hdenied. unfold toolStep.
  fold (toolNameOf toolCall). fold (argumentsOf toolCall). rewrite Hlookup, Hperm.
  destruct (askPermission lib _ _ _) as [granted w']. simpl in *. by subst granted.
Qed.

Lemma toolStep_executed s toolCall tool :
  Agent.tools (Dispatch.agent s) !! toolNameOf toolCall = Some tool ->
  (Tool.RequiresPermission tool = true ->
   (askPermission lib (toolNameOf toolCall) (argumentsOf toolCall) (Dispatch.world s)).1 = true) ->
  let w := emit (Exec (toolNameOf toolCall) (argumentsOf toolCall)) (cleared lib s toolCall tool) in
  let run := Tool.Execute tool (argumentsOf toolCall) (World.sys w) in
  toolStep lib s toolCall
  = Dispatch.mk (S (Dispatch.toolsExecuted s))
      (Dispatch.anyToolRequiredPermission s || Tool.RequiresPermission tool)
      (appendMessage (Message.mk "tool" (resultText run.1) "" []) (Dispatch.agent s))
      (World.mk (World.stdin w) (World.trace w) run.2).
Proof.
  intros Hlookup Hgranted. unfold toolStep, cleared.
  fold (toolNameOf toolCall). fold (argumentsOf toolCall). rewrite Hlookup.
  destruct (Tool.RequiresPermission tool).
  - specialize (Hgranted eq_refl).
    destruct (askPermission lib _ _ _) as [granted w']. simpl in *. subst granted. simpl.
    destruct (Tool.Execute tool _ _) as [outcome sys']. simpl. by rewrite orb_true_r.
  - simpl. destruct (Tool.Execute tool _ _) as [outcome sys']. simpl. by rewrite orb_false_r.
Qed.

Ltac step_side :=
  first [ done
        | by rewrite ?orb_true_r, ?orb_false_r
        | unfold executions, roundTrips, occurrences; simpl; lia ].

(** What one pass through the body of the tool loop does. *)
Lemma toolStep_spec s toolCall :
  exists turns events,
    Dispatch.agent (toolStep lib s toolCall) = withTurns (Dispatch.agent s) turns /\
    World.trace (Dispatch.world (toolStep lib s toolCall))
      = World.trace (Dispatch.world s) ++ events /\
    Dispatch.toolsExecuted (toolStep lib s toolCall)
      = Dispatch.toolsExecuted s + executions events /\
    roundTrips events = 0 /\ occurrences isContinuing events = 0 /\
    Dispatch.anyToolRequiredPermission (toolStep lib s toolCall)
      = Dispatch.anyToolRequiredPermission s || sensitive (Dispatch.agent s) toolCall /\
    Forall2 (answers (Dispatch.agent s)) (filter (known (Dispatch.agent s)) [toolCall]) turns /\
    executions events <= 1.
Proof.
  rewrite filter_known_one. unfold sensitive.
  destruct (Agent.tools (Dispatch.agent s) !! toolNameOf toolCall) as [tool|] eqn:Hlookup.
  - pose proof (askPermission_trace (toolNameOf toolCall) (argumentsOf toolCall) (Dispatch.world s))
      as Htrace.
    destruct (Tool.RequiresPermission tool) eqn:Hperm;
      [destruct (askPermission lib (toolNameOf toolCall) (argumentsOf toolCall) (Dispatch.world s)).1
         eqn:Hask|].
    + rewrite (toolStep_executed s toolCall tool) by done. unfold cleared. rewrite Hperm. simpl.
      eexists [_], [_; _]. rewrite Htrace, <- app_assoc. simpl.
      split_and!; try step_side.
      constructor; [|constructor]. split; [done|]. exists tool. split; [done|]. right. eauto.
    + rewrite (toolStep_denied s toolCall tool) by done. simpl.
      eexists [_], [_]. rewrite Htrace.
      split_and!; try step_side.
      constructor; [|constructor]. split; [done|]. exists tool. split; [done|]. by left.
    + rewrite (toolStep_executed s toolCall tool) by (done || congruence).
      unfold cleared. rewrite Hperm. simpl.
      eexists [_], [_]. simpl.
      split_and!; try step_side.
      constructor; [|constructor]. split; [done|]. exists tool. split; [done|]. right. eauto.
  - rewrite toolStep_unknown by done. simpl.
    eexists [], [_]. rewrite withTurns_nil.
    split_and!; step_side.
Qed.

(** *** The stream decoder *)

Lemma append_nil_r (x : string) : x +:+ "" = x.
Proof.
  induction x as [|c x IH]; [done|].
  change (String c (x +:+ "") = String c x). by rewrite IH.
Qed.

Lemma append_assoc (x y z : string) : (x +:+ y) +:+ z = x +:+ y +:+ z.
Proof.
  induction x as [|c x IH]; [done|].
  change (String c ((x +:+ y) +:+ z) = String c (x +:+ y +:+ z)). by rewrite IH.
Qed.

Lemma accumulate_Content finalMessage chunk :
  Message.Content (accumulate finalMessage chunk)
  = Message.Content finalMessage +:+ contentOf chunk.
Proof.
  unfold accumulate, contentOf. simpl.
  destruct (String.eqb_spec (Message.Content (OllamaResponse.Message chunk)) "") as [->|]; [|done].
  by rewrite append_nil_r.
Qed.

Lemma accumulate_Thinking finalMessage chunk :
  Message.Thinking (accumulate finalMessage chunk)
  = Message.Thinking finalMessage +:+ thinkingOf chunk.
Proof.
  unfold accumulate, thinkingOf. simpl.
  destruct (String.eqb_spec (Message.Thinking (OllamaResponse.Message chunk)) "") as [->|]; [|done].
  by rewrite append_nil_r.
Qed.

Lemma foldl_accumulate_Content chunks finalMessage :
  Message.Content (foldl accumulate finalMessage chunks)
  = Message.Content finalMessage +:+ concatenation (contentOf <$> chunks).
Proof.
  revert finalMessage. induction chunks as [|chunk chunks IH]; intros finalMessage; simpl.
  - by rewrite append_nil_r.
  - by rewrite IH, accumulate_Content, append_assoc.
Qed.

Lemma foldl_accumulate_Thinking chunks finalMessage :
  Message.Thinking (foldl accumulate finalMessage chunks)
  = Message.Thinking finalMessage +:+ concatenation (thinkingOf <$> chunks).
Proof.
  revert finalMessage. induction chunks as [|chunk chunks IH]; intros finalMessage; simpl.
  - by rewrite append_nil_r.
  - by rewrite IH, accumulate_Thinking, append_assoc.
Qed.

(** The message the scan loop assembles is the fold of [accumulate] over
    the well-formed fragments it reads; the surroundings play no part. *)
Lemma scanLoop_message tokens errAtEnd finalMessage w :
  (scanLoop lib tokens errAtEnd finalMessage w).1.1
  = foldl accumulate finalMessage (uptoDone (fragments lib tokens)).
Proof.
  revert finalMessage w.
  induction tokens as [|tok tokens IH]; intros finalMessage w; [done|].
  unfold fragments in *. simpl.
  destruct (String.eqb (Scanner.Text tok) ""); [apply IH|].
  destruct (json_Unmarshal lib (Scanner.Text tok)) as [chunk|err]; [|apply IH].
  simpl. destruct (OllamaResponse.Done chunk); [done|]. apply IH.
Qed.

Lemma uptoDone_first pre d post :
  Forall (fun chunk => OllamaResponse.Done chunk = false) pre ->
  OllamaResponse.Done d = true ->
  uptoDone (pre ++ d :: post) = pre ++ [d].
Proof.
  intros Hpre Hd. induction Hpre as [|chunk pre Hchunk _ IH]; simpl.
  - by rewrite Hd.
  - by rewrite Hchunk, IH.
Qed.

(** The scan loop only adds events, none of which starts a round-trip or
    executes a tool, and leaves standard input and the tools' state alone. *)
Lemma scanLoop_world tokens errAtEnd finalMessage w :
  exists events,
    World.trace (scanLoop lib tokens errAtEnd finalMessage w).2 = World.trace w ++ events /\
    roundTrips events = 0 /\ occurrences isContinuing events = 0 /\ executions events = 0 /\
    World.stdin (scanLoop lib tokens errAtEnd finalMessage w).2 = World.stdin w /\
    World.sys (scanLoop lib tokens errAtEnd finalMessage w).2 = World.sys w.
Proof.
  revert finalMessage w.
  induction tokens as [|tok tokens IH]; intros finalMessage w.
  - exists []. simpl. by rewrite app_nil_r.
  - simpl. destruct (String.eqb (Scanner.Text tok) "").
    + destruct (IH finalMessage (emit SpinnerStop w)) as (events & -> & ? & ? & ? & -> & ->).
      exists (SpinnerStop :: events). simpl. by rewrite <- app_assoc.
    + destruct (json_Unmarshal lib (Scanner.Text tok)) as [chunk|err].
      * destruct (OllamaResponse.Done chunk).
        { by exists [SpinnerStop]. }
        destruct (IH (accumulate finalMessage chunk) (emit SpinnerStop w))
          as (events & -> & ? & ? & ? & -> & ->).
        exists (SpinnerStop :: events). simpl. by rewrite <- app_assoc.
      * destruct (IH finalMessage (emit (Log ("Error parsing chunk: " +:+ err)) (emit SpinnerStop w)))
          as (events & -> & ? & ? & ? & -> & ->).
        exists (SpinnerStop :: Log ("Error parsing chunk: " +:+ err) :: events).
        simpl. by rewrite <- !app_assoc.
Qed.

(** What the scan loop returns does not depend on the surroundings. *)
Lemma scanLoop_result tokens errAtEnd finalMessage w w' :
  (scanLoop lib tokens errAtEnd finalMessage w).1
  = (scanLoop lib tokens errAtEnd finalMessage w').1.
Proof.
  revert finalMessage w w'.
  induction tokens as [|tok tokens IH]; intros finalMessage w w'; [done|].
  simpl. destruct (String.eqb (Scanner.Text tok) ""); [apply IH|].
  destruct (json_Unmarshal lib (Scanner.Text tok)) as [chunk|err]; [|apply IH].
  destruct (OllamaResponse.Done chunk); [done|]. apply IH.
Qed.

(** *** The tool loop *)

Lemma toolLoop_app calls1 calls2 s :
  toolLoop lib (calls1 ++ calls2) s = toolLoop lib calls2 (toolLoop lib calls1 s).
Proof. unfold toolLoop. apply foldl_app. Qed.

(** What the whole tool loop does: it appends one turn per invocation of a
    registered tool, in order, and counts the executions. *)
Lemma toolLoop_spec calls s :
  exists turns events,
    Dispatch.agent (toolLoop lib calls s) = withTurns (Dispatch.agent s) turns /\
    World.trace (Dispatch.world (toolLoop lib calls s))
      = World.trace (Dispatch.world s) ++ events /\
    Dispatch.toolsExecuted (toolLoop lib calls s)
      = Dispatch.toolsExecuted s + executions events /\
    roundTrips events = 0 /\ occurrences isContinuing events = 0 /\
    Dispatch.anyToolRequiredPermission (toolLoop lib calls s)
      = Dispatch.anyToolRequiredPermission s || existsb (sensitive (Dispatch.agent s)) calls /\
    Forall2 (answers (Dispatch.agent s)) (filter (known (Dispatch.agent s)) calls) turns /\
    executions events <= length calls.
Proof.
  revert s. induction calls as [|toolCall calls IH]; intros s.
  - exists [], []. simpl. rewrite withTurns_nil, app_nil_r.
    split_and!; step_side.
  - destruct (toolStep_spec s toolCall)
      as (turns1 & events1 & Hagent1 & Htrace1 & Hcount1 & Hstarts1 & Hcont1 & Hany1 & Hturns1 & Hle1).
    destruct (IH (toolStep lib s toolCall))
      as (turns2 & events2 & Hagent2 & Htrace2 & Hcount2 & Hstarts2 & Hcont2 & Hany2 & Hturns2 & Hle2).
    rewrite Hagent1 in Hagent2, Hany2, Hturns2.
    exists (turns1 ++ turns2), (events1 ++ events2).
    change (toolLoop lib (toolCall :: calls) s) with (toolLoop lib calls (toolStep lib s toolCall)).
    rewrite Hagent2, Htrace2, Htrace1, Hcount2, Hcount1, Hany2, Hany1.
    rewrite withTurns_app, <- app_assoc.
    unfold executions, roundTrips in *. rewrite !occurrences_app.
    split_and!; [done | done | lia | lia | lia | | |].
    + simpl. by rewrite orb_assoc.
    + change (toolCall :: calls) with ([toolCall] ++ calls). rewrite filter_app.
      by apply Forall2_app.
    + simpl. lia.
Qed.

(** *** One round-trip *)

(** What a round-trip does: it starts exactly once; when it fails the agent
    is untouched and no tool has run; when it succeeds the assistant turn
    and then one turn per invocation of a registered tool are appended, and
    the flag is computed from the executions and the sensitive tools. *)
Lemma processOneResponse_spec round a w :
  exists events,
    World.trace (processOneResponse lib round a w).2 = World.trace w ++ events /\
    roundTrips events = 1 /\ occurrences isContinuing events = 0 /\
    match (processOneResponse lib round a w).1.1.2 with
    | Some e =>
        transportFailure lib round a e /\
        (processOneResponse lib round a w).1.2 = a /\
        (processOneResponse lib round a w).1.1.1 = false /\
        executions events = 0 /\
        World.stdin (processOneResponse lib round a w).2 = World.stdin w /\
        World.sys (processOneResponse lib round a w).2 = World.sys w
    | None =>
        exists finalMessage turns,
          (processOneResponse lib round a w).1.2 = withTurns a (finalMessage :: turns) /\
          (processOneResponse lib round a w).1.1.1
            = Nat.ltb 0 (executions events)
              && negb (existsb (sensitive a) (Message.ToolCalls finalMessage)) /\
          Forall2 (answers a) (filter (known a) (Message.ToolCalls finalMessage)) turns /\
          executions events <= length (Message.ToolCalls finalMessage)
    end.
Proof.
  unfold processOneResponse, roundTrip. fold (requestOf round a).
  destruct (json_MarshalIndent lib (requestOf round a)) as [jsonData|e] eqn:Hmarshal.
  2: { exists [SpinnerStart; SpinnerStop]. simpl. rewrite <- app_assoc.
       split_and!; try done. by apply marshalFailed. }
  destruct (http_NewRequest lib "POST" (Agent.ollamaURL a +:+ "/api/chat") jsonData)
    as [request|e] eqn:Hrequest.
  2: { exists [SpinnerStart; SpinnerStop]. simpl. rewrite <- app_assoc.
       split_and!; try done. by eapply constructionFailed. }
  destruct (Round.Do round request) as [body|e] eqn:Hdo.
  2: { exists [SpinnerStart; HttpDo request; SpinnerStop]. simpl. rewrite <- !app_assoc.
       split_and!; try done. by eapply endpointUnreachable. }
  pose proof (scanLoop_world (Scanner.Tokens body) (Scanner.ErrAtEnd body) Message.zero
                (emit (HttpDo request) (emit SpinnerStart w)))
    as (events1 & Htrace1 & Hstarts1 & Hcont1 & Hexec1 & Hstdin1 & Hsys1).
  destruct (scanLoop lib (Scanner.Tokens body) (Scanner.ErrAtEnd body) Message.zero
              (emit (HttpDo request) (emit SpinnerStart w)))
    as [[finalMessage scanErr] w1] eqn:Hscan.
  simpl in Htrace1, Hstdin1, Hsys1.
  destruct scanErr as [e|].
  - exists ([SpinnerStart; HttpDo request] ++ events1 ++ [SpinnerStop; SpinnerStop]).
    simpl. rewrite Htrace1, Hstdin1, Hsys1. rewrite <- !app_assoc. simpl.
    unfold executions, roundTrips in *.
    split_and!; try done.
    + change (SpinnerStart :: HttpDo request :: events1 ++ [SpinnerStop; SpinnerStop])
        with ([SpinnerStart; HttpDo request] ++ events1 ++ [SpinnerStop; SpinnerStop]).
      rewrite !occurrences_app, Hstarts1. done.
    + change (SpinnerStart :: HttpDo request :: events1 ++ [SpinnerStop; SpinnerStop])
        with ([SpinnerStart; HttpDo request] ++ events1 ++ [SpinnerStop; SpinnerStop]).
      rewrite !occurrences_app, Hcont1. done.
    + eapply streamBroken; [done..|]. by rewrite Hscan.
    + change (SpinnerStart :: HttpDo request :: events1 ++ [SpinnerStop; SpinnerStop])
        with ([SpinnerStart; HttpDo request] ++ events1 ++ [SpinnerStop; SpinnerStop]).
      rewrite !occurrences_app, Hexec1. done.
  - destruct (toolLoop_spec (Message.ToolCalls finalMessage)
                (Dispatch.mk 0 false (appendMessage finalMessage a) w1))
      as (turns & events2 & Hagent2 & Htrace2 & Hcount2 & Hstarts2 & Hcont2 & Hany2 & Hturns2 & Hle2).
    simpl in Hagent2, Htrace2, Hcount2, Hany2, Hturns2.
    exists ([SpinnerStart; HttpDo request] ++ events1 ++ events2 ++ [SpinnerStop]).
    simpl. rewrite Htrace2, Htrace1. rewrite <- !app_assoc. simpl.
    change (SpinnerStart :: HttpDo request :: events1 ++ events2 ++ [SpinnerStop])
      with ([SpinnerStart; HttpDo request] ++ events1 ++ events2 ++ [SpinnerStop]).
    unfold executions, roundTrips in *. rewrite !occurrences_app, Hstarts1, Hstarts2, Hcont1, Hcont2, Hexec1.
    split_and!; try done.
    exists finalMessage, turns. rewrite Hagent2, Hany2, Hcount2.
    rewrite appendMessage_withTurns, withTurns_app.
    replace (occurrences isExec [SpinnerStart; HttpDo request]
             + (0 + (occurrences isExec events2 + occurrences isExec [SpinnerStop])))
      with (occurrences isExec events2) by (unfold occurrences; simpl; lia).
    split_and!; done.
Qed.

(** A transport-level failure makes the round-trip return its error. *)
Lemma transportFailure_returned round a w e :
  transportFailure lib round a e ->
  (processOneResponse lib round a w).1.1 = (false, Some e).
Proof.
  intros Hfailure. unfold processOneResponse, roundTrip. fold (requestOf round a).
  destruct Hfailure as [e Hmarshal | jsonData e Hmarshal Hrequest
                       | jsonData request e Hmarshal Hrequest Hdo
                       | jsonData request body w0 e Hmarshal Hrequest Hdo Hscan].
  - by rewrite Hmarshal.
  - by rewrite Hmarshal, Hrequest.
  - by rewrite Hmarshal, Hrequest, Hdo.
  - rewrite Hmarshal, Hrequest, Hdo.
    rewrite (scanLoop_result _ _ _ w0 (emit (HttpDo request) (emit SpinnerStart w))) in Hscan.
    destruct (scanLoop lib _ _ _ _) as [[finalMessage scanErr] w1].
    simpl in Hscan. by subst scanErr.
Qed.

(** *** The agentic loop *)

Lemma agenticLoop_spec rounds remaining iteration a w :
  exists turns events,
    (agenticLoop lib remaining iteration rounds a w).1.2 = withTurns a turns /\
    World.trace (agenticLoop lib remaining iteration rounds a w).2 = World.trace w ++ events /\
    roundTrips events <= remaining /\
    (0 < remaining -> 0 < roundTrips events) /\
    occurrences isContinuing events <= remaining /\
    (occurrences isContinuing events = remaining ->
     (agenticLoop lib remaining iteration rounds a w).1.1 = None).
Proof.
  revert iteration a w.
  induction remaining as [|remaining IH]; intros iteration a w.
  - exists [], []. simpl. rewrite withTurns_nil, app_nil_r.
    split_and!; try done; try step_side.
  - simpl.
    destruct (processOneResponse_spec (rounds iteration) a w)
      as (events1 & Htrace1 & Hstarts1 & Hcont1 & Hround).
    destruct (processOneResponse lib (rounds iteration) a w) as [[[shouldContinue err] a1] w1].
    simpl in Htrace1, Hround.
    destruct err as [e|].
    + destruct Hround as (_ & -> & _).
      exists [], events1. simpl. rewrite withTurns_nil.
      split_and!; try done; lia.
    + destruct Hround as (finalMessage & turns1 & -> & _).
      destruct shouldContinue; simpl.
      * destruct (IH (S iteration) (withTurns a (finalMessage :: turns1))
                    (emit (Continuing (iteration + 2) maxIterations) w1))
          as (turns2 & events2 & Hagent2 & Htrace2 & Hstarts2 & _ & Hcont2 & Hcap2).
        exists ((finalMessage :: turns1) ++ turns2),
               (events1 ++ [Continuing (iteration + 2) maxIterations] ++ events2).
        rewrite Hagent2, Htrace2, withTurns_app. simpl. rewrite Htrace1, <- !app_assoc.
        unfold roundTrips in *. rewrite !occurrences_app, !occurrences_cons, Hstarts1, Hcont1.
        simpl. split_and!; try done; try lia.
        intros Hcap. apply Hcap2. lia.
      * exists (finalMessage :: turns1), events1.
        split_and!; try done; lia.
Qed.

Lemma toolLoop_tools calls s :
  Agent.tools (Dispatch.agent (toolLoop lib calls s)) = Agent.tools (Dispatch.agent s).
Proof. destruct (toolLoop_spec calls s) as (turns & events & -> & _). done. Qed.

Lemma fragments_app tokens1 tokens2 :
  fragments lib (tokens1 ++ tokens2) = fragments lib tokens1 ++ fragments lib tokens2.
Proof. unfold fragments. apply omap_app. Qed.

Lemma sensitive_none a calls :
  existsb (sensitive a) calls = false <->
  forall toolCall tool,
    toolCall ∈ calls ->
    Agent.tools a !! toolNameOf toolCall = Some tool ->
    Tool.RequiresPermission tool = false.
Proof.
  induction calls as [|call calls IH]; simpl.
  - split; [|done]. intros _ toolCall tool Hin. by apply elem_of_nil in Hin.
  - rewrite orb_false_iff, IH. unfold sensitive at 1. split.
    + intros [Hcall Hcalls] toolCall tool [->|Hin]%elem_of_cons Hlookup.
      * by rewrite Hlookup in Hcall.
      * by eapply Hcalls.
    + intros Hall. split.
      * destruct (Agent.tools a !! toolNameOf call) as [tool|] eqn:Hlookup; [|done].
        eapply Hall; [apply elem_of_cons; by left | done].
      * intros toolCall tool Hin. apply Hall. apply elem_of_cons. by right.
Qed.

(** ** The claims *)

(** C3. For every stream whose well-formed fragments run up to a fragment
    with [done] set, the assembled message's [Content] is the concatenation,
    in order, of the [content] of every fragment up to and including that
    one, and its [Thinking] is the concatenation of their [thinking],
    whatever else the fragments carry and whatever lines lie between. *)
Theorem decoder_concatenates tokens errAtEnd w pre d post :
  fragments lib tokens = pre ++ d :: post ->
  Forall (fun chunk => OllamaResponse.Done chunk = false) pre ->
  OllamaResponse.Done d = true ->
  Message.Content (scanLoop lib tokens errAtEnd Message.zero w).1.1
    = concatenation (contentOf <$> (pre ++ [d])) /\
  Message.Thinking (scanLoop lib tokens errAtEnd Message.zero w).1.1
    = concatenation (thinkingOf <$> (pre ++ [d])).
Proof.
  intros Hfragments Hpre Hd.
  rewrite scanLoop_message, Hfragments, uptoDone_first by done.
  by rewrite foldl_accumulate_Content, foldl_accumulate_Thinking.
Qed.

(** C8. A line that [json.Unmarshal] rejects is logged (when the decoder
    gets to it) and skipped: the stream is read on, and the message
    assembled and the read error reported are those of the same stream
    without that line, wherever the line stands. *)
Theorem malformed_fragment_skipped pre bad post errAtEnd finalMessage w err :
  Scanner.Text bad <> "" ->
  json_Unmarshal lib (Scanner.Text bad) = Err err ->
  (scanLoop lib (pre ++ bad :: post) errAtEnd finalMessage w).1
    = (scanLoop lib (pre ++ post) errAtEnd finalMessage w).1 /\
  fragments lib (pre ++ bad :: post) = fragments lib (pre ++ post) /\
  (Forall (fun chunk => OllamaResponse.Done chunk = false) (fragments lib pre) ->
   Log ("Error parsing chunk: " +:+ err)
     ∈ World.trace (scanLoop lib (pre ++ bad :: post) errAtEnd finalMessage w).2).
Proof.
  intros Hnonempty Hbad. apply String.eqb_neq in Hnonempty.
  split_and!.
  - revert finalMessage w. induction pre as [|tok pre IH]; intros finalMessage w; simpl.
    + rewrite Hnonempty, Hbad. apply scanLoop_result.
    + destruct (String.eqb (Scanner.Text tok) ""); [apply IH|].
      destruct (json_Unmarshal lib (Scanner.Text tok)) as [chunk|e]; [|].
      * destruct (OllamaResponse.Done chunk); [done|]. apply IH.
      * rewrite IH. apply scanLoop_result.
  - rewrite !fragments_app. f_equal. unfold fragments. simpl. by rewrite Hnonempty, Hbad.
  - revert finalMessage w. induction pre as [|tok pre IH]; intros finalMessage w Hpre; simpl.
    + rewrite Hnonempty, Hbad.
      destruct (scanLoop_world post errAtEnd finalMessage
                  (emit (Log ("Error parsing chunk: " +:+ err)) (emit SpinnerStop w)))
        as (events & -> & _).
      simpl. rewrite !elem_of_app. left. right. by apply list_elem_of_singleton.
    + unfold fragments in Hpre. simpl in Hpre.
      destruct (String.eqb (Scanner.Text tok) ""); [by apply IH|].
      destruct (json_Unmarshal lib (Scanner.Text tok)) as [chunk|e]; [|by apply IH].
      apply Forall_cons in Hpre as [-> Hpre]. by apply IH.
Qed.

(** C4. When an invocation resolves to a tool that requires permission and
    the operator's answer is a denial, the loop appends the tool-role turn
    [Permission denied for <name>] and goes on to the next invocation; the
    only effect is the prompt: [Execute] is not called, the tools' state
    and the count of executions stay as they were. *)
Theorem denied_tool_not_executed calls1 toolCall calls2 s tool :
  Agent.tools (Dispatch.agent s) !! toolNameOf toolCall = Some tool ->
  Tool.RequiresPermission tool = true ->
  (askPermission lib (toolNameOf toolCall) (argumentsOf toolCall)
     (Dispatch.world (toolLoop lib calls1 s))).1 = false ->
  toolLoop lib (calls1 ++ toolCall :: calls2) s
    = toolLoop lib calls2 (toolStep lib (toolLoop lib calls1 s) toolCall) /\
  Dispatch.agent (toolStep lib (toolLoop lib calls1 s) toolCall)
    = appendMessage
        (Message.mk "tool" ("Permission denied for " +:+ toolNameOf toolCall) "" [])
        (Dispatch.agent (toolLoop lib calls1 s)) /\
  World.trace (Dispatch.world (toolStep lib (toolLoop lib calls1 s) toolCall))
    = World.trace (Dispatch.world (toolLoop lib calls1 s))
      ++ [Ask (toolNameOf toolCall) (argumentsOf toolCall)] /\
  World.sys (Dispatch.world (toolStep lib (toolLoop lib calls1 s) toolCall))
    = World.sys (Dispatch.world (toolLoop lib calls1 s)) /\
  Dispatch.toolsExecuted (toolStep lib (toolLoop lib calls1 s) toolCall)
    = Dispatch.toolsExecuted (toolLoop lib calls1 s).
Proof.
  intros Hlookup Hperm Hdenied.
  rewrite <- (toolLoop_tools calls1 s) in Hlookup.
  rewrite (toolStep_denied _ toolCall tool) by done. simpl.
  rewrite askPermission_trace, askPermission_sys.
  split_and!; try done.
  rewrite toolLoop_app. simpl. f_equal. by rewrite (toolStep_denied _ toolCall tool).
Qed.

(** C7. When an invocation is executed and [Execute] returns an error, the
    loop appends the tool-role turn [Error: <error>], counts the execution
    and goes on to the next invocation; and a round-trip that does return
    an error has executed no tool, so the error of a tool never leaves the
    loop. *)
Theorem tool_error_is_data calls1 toolCall calls2 s tool text e :
  Agent.tools (Dispatch.agent s) !! toolNameOf toolCall = Some tool ->
  (Tool.RequiresPermission tool = true ->
   (askPermission lib (toolNameOf toolCall) (argumentsOf toolCall)
      (Dispatch.world (toolLoop lib calls1 s))).1 = true) ->
  (Tool.Execute tool (argumentsOf toolCall)
     (World.sys (Dispatch.world (toolLoop lib calls1 s)))).1 = (text, Some e) ->
  toolLoop lib (calls1 ++ toolCall :: calls2) s
    = toolLoop lib calls2 (toolStep lib (toolLoop lib calls1 s) toolCall) /\
  Dispatch.agent (toolStep lib (toolLoop lib calls1 s) toolCall)
    = appendMessage (Message.mk "tool" ("Error: " +:+ e) "" [])
        (Dispatch.agent (toolLoop lib calls1 s)) /\
  Dispatch.toolsExecuted (toolStep lib (toolLoop lib calls1 s) toolCall)
    = S (Dispatch.toolsExecuted (toolLoop lib calls1 s)) /\
  (forall round a w,
     (processOneResponse lib round a w).1.1.2 <> None ->
     exists events,
       World.trace (processOneResponse lib round a w).2 = World.trace w ++ events /\
       executions events = 0).
Proof.
  intros Hlookup Hgranted Hexec.
  rewrite <- (toolLoop_tools calls1 s) in Hlookup.
  split_and!.
  - rewrite toolLoop_app. done.
  - rewrite (toolStep_executed _ toolCall tool) by done. simpl.
    replace (World.sys (cleared lib (toolLoop lib calls1 s) toolCall tool))
      with (World.sys (Dispatch.world (toolLoop lib calls1 s)))
      by (unfold cleared; destruct (Tool.RequiresPermission tool);
          [by rewrite askPermission_sys | done]).
    by rewrite Hexec.
  - by rewrite (toolStep_executed _ toolCall tool).
  - intros round a w Herr.
    destruct (processOneResponse_spec round a w) as (events & Htrace & _ & _ & Hround).
    exists events. split; [done|].
    destruct ((processOneResponse lib round a w).1.1.2); [|done].
    by destruct Hround as (_ & _ & _ & ? & _).
Qed.


(** C2 (amended). After a round-trip that succeeds, the flag it returns is
    set if and only if at least one tool was executed in it and no
    invocation in it resolved to a tool that requires permission; with no
    invocation at all the flag is clear; and the loop starts another
    round-trip if and only if the flag is set and the cap on iterations is
    not yet reached. *)
Theorem continue_decision rounds remaining iteration a w shouldContinue a1 w1 :
  processOneResponse lib (rounds iteration) a w = ((shouldContinue, None), a1, w1) ->
  exists finalMessage turns events later,
    Agent.conversation a1 = Agent.conversation a ++ finalMessage :: turns /\
    World.trace w1 = World.trace w ++ events /\
    (shouldContinue = true <->
     0 < executions events /\
     forall toolCall tool,
       toolCall ∈ Message.ToolCalls finalMessage ->
       Agent.tools a !! toolNameOf toolCall = Some tool ->
       Tool.RequiresPermission tool = false) /\
    (Message.ToolCalls finalMessage = [] -> shouldContinue = false) /\
    World.trace (agenticLoop lib (S remaining) iteration rounds a w).2
      = World.trace w1 ++ later /\
    (0 < roundTrips later <-> shouldContinue = true /\ 0 < remaining).
Proof.
  intros Hround.
  destruct (processOneResponse_spec (rounds iteration) a w)
    as (events & Htrace & _ & _ & Hspec).
  rewrite Hround in Htrace, Hspec. simpl in Htrace, Hspec.
  destruct Hspec as (finalMessage & turns & -> & Hflag & _ & Hle).
  simpl. rewrite Hround.
  assert (Hiff : shouldContinue = true <->
            0 < executions events /\
            forall toolCall tool,
              toolCall ∈ Message.ToolCalls finalMessage ->
              Agent.tools a !! toolNameOf toolCall = Some tool ->
              Tool.RequiresPermission tool = false).
  { rewrite Hflag, andb_true_iff, negb_true_iff, Nat.ltb_lt. by rewrite sensitive_none. }
  assert (Hnone : Message.ToolCalls finalMessage = [] -> shouldContinue = false).
  { intros Hcalls. rewrite Hcalls in Hle. simpl in Hle.
    rewrite Hflag. replace (executions events) with 0 by lia. done. }
  destruct shouldContinue; simpl.
  - destruct (agenticLoop_spec rounds remaining (S iteration)
                (withTurns a (finalMessage :: turns))
                (emit (Continuing (iteration + 2) maxIterations) w1))
      as (turns2 & events2 & _ & Htrace2 & Hstarts2 & Hsome2 & _).
    exists finalMessage, turns, events,
           ([Continuing (iteration + 2) maxIterations] ++ events2).
    rewrite Htrace2. simpl. rewrite <- app_assoc.
    split_and!; try done.
    unfold roundTrips in *. rewrite occurrences_cons. simpl.
    split; [|intros [_ ?]; by apply Hsome2].
    intros Hstarted. split; [done|]. lia.
  - exists finalMessage, turns, events, []. rewrite app_nil_r.
    split_and!; try done.
    split; [unfold roundTrips, occurrences; simpl; lia | by intros [? _]].
Qed.




(** C10. The prompt allows by default: [askPermission] grants exactly when
    the string the operator's answer comes back as from [readInput] (the
    next of standard input; the empty string when the input has ended),
    lowercased and trimmed, is empty, [y] or [yes], and denies on every
    other answer; the answer is used up by the prompt; and at the end of
    the input the default, which allows, applies. *)
Theorem permission_default_allow toolName params w :
  ((askPermission lib toolName params w).1 = true <->
   strings_TrimSpace lib (strings_ToLower lib (default "" (head (World.stdin w)))) = "" \/
   strings_TrimSpace lib (strings_ToLower lib (default "" (head (World.stdin w)))) = "y" \/
   strings_TrimSpace lib (strings_ToLower lib (default "" (head (World.stdin w)))) = "yes") /\
  World.stdin (askPermission lib toolName params w).2 = tail (World.stdin w) /\
  (World.stdin w = [] ->
   strings_TrimSpace lib (strings_ToLower lib "") = "" ->
   (askPermission lib toolName params w).1 = true).
Proof.
  unfold askPermission, readInput. simpl.
  destruct (World.stdin w) as [|line rest] eqn:Hstdin; simpl.
  - split_and!; [|done|].
    + rewrite !orb_true_iff, !String.eqb_eq. tauto.
    + intros _ ->. done.
  - split_and!; [|done|done].
    rewrite !orb_true_iff, !String.eqb_eq. tauto.
Qed.

End Properties.

(** ** The claims on the small installation *)

Lemma decoder_concatenates_witness :
  Message.Content (scanLoop Fixture.lib Fixture.chatter None Message.zero (Fixture.world [])).1.1
    = "Hello!" /\
  Message.Thinking (scanLoop Fixture.lib Fixture.chatter None Message.zero (Fixture.world [])).1.1
    = "Let me see".
Proof.
  apply (decoder_concatenates Fixture.lib Fixture.chatter None (Fixture.world [])
           [Fixture.chunk "assistant" "" "Let me" [] false;
            Fixture.chunk "assistant" "Hel" "" [] false;
            Fixture.chunk "" "" " see" [] false;
            Fixture.chunk "" "lo" "" [] false]
           (Fixture.chunk "" "!" "" [] true)
           [Fixture.chunk "" "lo" "" [] false]).
  - reflexivity.
  - repeat constructor.
  - reflexivity.
Defined.

Lemma malformed_fragment_skipped_witness :
  (scanLoop Fixture.lib
     (Fixture.line <$> ["say:Hel"; "garbage"; "say:lo"; "done"]) None Message.zero
     (Fixture.world [])).1
    = (Message.mk "assistant" "Hello" "" [], None) /\
  Log "Error parsing chunk: invalid character"
    ∈ World.trace
        (scanLoop Fixture.lib
           (Fixture.line <$> ["say:Hel"; "garbage"; "say:lo"; "done"]) None Message.zero
           (Fixture.world [])).2.
Proof.
  destruct (malformed_fragment_skipped Fixture.lib
              [Fixture.line "say:Hel"] (Fixture.line "garbage")
              [Fixture.line "say:lo"; Fixture.line "done"]
              None Message.zero (Fixture.world []) "invalid character")
    as (Hsame & _ & Hlogged).
  - discriminate.
  - reflexivity.
  - split.
    + exact (eq_trans Hsame eq_refl).
    + exact (Hlogged ltac:(repeat constructor)).
Defined.



Lemma continue_decision_witness :
  exists finalMessage turns events later,
    Agent.conversation (processOneResponse Fixture.lib (Fixture.listing 0) Fixture.agent
                          (Fixture.world [])).1.2
      = Agent.conversation Fixture.agent ++ finalMessage :: turns /\
    World.trace (processOneResponse Fixture.lib (Fixture.listing 0) Fixture.agent
                   (Fixture.world [])).2
      = World.trace (Fixture.world []) ++ events /\
    (true = true <->
     0 < executions events /\
     forall toolCall tool,
       toolCall ∈ Message.ToolCalls finalMessage ->
       Agent.tools Fixture.agent !! toolNameOf toolCall = Some tool ->
       Tool.RequiresPermission tool = false) /\
    (Message.ToolCalls finalMessage = [] -> true = false) /\
    World.trace (agenticLoop Fixture.lib 10 0 Fixture.listing Fixture.agent (Fixture.world [])).2
      = World.trace (processOneResponse Fixture.lib (Fixture.listing 0) Fixture.agent
                       (Fixture.world [])).2 ++ later /\
    (0 < roundTrips later <-> true = true /\ 0 < 9).
Proof.
  apply (continue_decision Fixture.lib Fixture.listing 9 0 Fixture.agent (Fixture.world []) true).
  vm_compute. reflexivity.
Defined.

(** C2 as stated fails at the cap: in each of the ten round-trips below a
    tool is executed and nothing requires permission, the loop decides ten
    times to go on, and there is no eleventh round-trip. *)
Lemma loop_stops_at_cap :
  Fixture.runaway.1.1 = None /\
  roundTrips (World.trace Fixture.runaway.2) = 10 /\
  executions (World.trace Fixture.runaway.2) = 10 /\
  occurrences isContinuing (World.trace Fixture.runaway.2) = 10 /\
  last (World.trace Fixture.runaway.2) = Some (Continuing 11 10) /\
  Tool.RequiresPermission Fixture.listTool = false.
Proof. vm_compute. repeat split; reflexivity. Qed.

Lemma denied_tool_not_executed_witness :
  toolLoop Fixture.lib
    [Fixture.call "list_directory"; Fixture.call "run_shell_command"; Fixture.call "read_file"]
    (Fixture.dispatch ["no"])
  = toolLoop Fixture.lib [Fixture.call "read_file"]
      (toolStep Fixture.lib
         (toolLoop Fixture.lib [Fixture.call "list_directory"] (Fixture.dispatch ["no"]))
         (Fixture.call "run_shell_command")) /\
  Agent.conversation
    (Dispatch.agent
       (toolStep Fixture.lib
          (toolLoop Fixture.lib [Fixture.call "list_directory"] (Fixture.dispatch ["no"]))
          (Fixture.call "run_shell_command")))
  = [Message.mk "tool" "a.txt" "" [];
     Message.mk "tool" "Permission denied for run_shell_command" "" []] /\
  World.sys
    (Dispatch.world
       (toolStep Fixture.lib
          (toolLoop Fixture.lib [Fixture.call "list_directory"] (Fixture.dispatch ["no"]))
          (Fixture.call "run_shell_command")))
  = ["list_directory"].
Proof.
  destruct (denied_tool_not_executed Fixture.lib
              [Fixture.call "list_directory"] (Fixture.call "run_shell_command")
              [Fixture.call "read_file"] (Fixture.dispatch ["no"]) Fixture.shellTool)
    as (Hloop & Hagent & _ & Hsys & _).
  - vm_compute. reflexivity.
  - reflexivity.
  - vm_compute. reflexivity.
  - split_and!.
    + exact Hloop.
    + exact (eq_trans (f_equal Agent.conversation Hagent) eq_refl).
    + exact (eq_trans Hsys eq_refl).
Defined.

Lemma tool_error_is_data_witness :
  Agent.conversation
    (Dispatch.agent
       (toolStep Fixture.lib (toolLoop Fixture.lib [] (Fixture.dispatch []))
          (Fixture.call "read_file")))
  = [Message.mk "tool" "Error: open .: is a directory" "" []] /\
  Dispatch.toolsExecuted
    (toolStep Fixture.lib (toolLoop Fixture.lib [] (Fixture.dispatch []))
       (Fixture.call "read_file")) = 1.
Proof.
  destruct (tool_error_is_data Fixture.lib [] (Fixture.call "read_file")
              [Fixture.call "list_directory"] (Fixture.dispatch []) Fixture.readTool
              "" "open .: is a directory")
    as (_ & Hagent & Hcount & _).
  - vm_compute. reflexivity.
  - discriminate.
  - reflexivity.
  - split.
    + exact (eq_trans (f_equal Agent.conversation Hagent) eq_refl).
    + exact Hcount.
Defined.




(** The permission prompt on the small installation: a capital [Y], a
    padded [yes], an empty line and the end of input allow; [n], [no] and
    anything else deny. *)
Example permission_answers :
  (fun answer => (askPermission Fixture.lib "run_shell_command" ∅ (Fixture.world answer)).1)
    <$> [["Y"]; ["  Yes "]; [""]; []; ["n"]; ["no"]; ["yeah"]; ["y e s"]]
  = [true; true; true; true; false; false; false; false].
Proof. vm_compute. reflexivity. Qed.

Lemma permission_default_allow_witness :
  (askPermission Fixture.lib "run_shell_command" ∅ (Fixture.world ["  Yes "; "next"])).1 = true /\
  World.stdin
    (askPermission Fixture.lib "run_shell_command" ∅ (Fixture.world ["  Yes "; "next"])).2
    = ["next"] /\
  (askPermission Fixture.lib "run_shell_command" ∅ (Fixture.world ["n"; "yes"])).1 = false /\
  (askPermission Fixture.lib "run_shell_command" ∅ (Fixture.world [])).1 = true.
Proof.
  destruct (permission_default_allow Fixture.lib "run_shell_command" ∅
              (Fixture.world ["  Yes "; "next"])) as ([_ Hyes] & Hrest & _).
  destruct (permission_default_allow Fixture.lib "run_shell_command" ∅
              (Fixture.world ["n"; "yes"])) as ([Hno _] & _ & _).
  destruct (permission_default_allow Fixture.lib "run_shell_command" ∅
              (Fixture.world [])) as (_ & _ & Hdefault).
  split_and!.
  - apply Hyes. right. right. reflexivity.
  - exact Hrest.
  - destruct (askPermission Fixture.lib "run_shell_command" ∅ (Fixture.world ["n"; "yes"])).1;
      [|reflexivity].
    destruct (Hno eq_refl) as [Hno'|[Hno'|Hno']]; discriminate Hno'.
  - apply Hdefault; reflexivity.
Defined.

(** A stream that breaks after two fragments: the text accumulated so far
    is dropped with the error. *)
Example broken_stream_discarded :
  (processOneResponse Fixture.lib Fixture.broken Fixture.agent (Fixture.world [])).1
  = ((false, Some "error reading stream: unexpected EOF"), Fixture.agent).
Proof. vm_compute. reflexivity. Qed.

(** * The rest of the engine: registry, decoder, dispatch *)

Definition isAsk (e : Event) : bool :=
  match e with Ask _ _ => true | _ => false end.

(** The prompt raised for an invocation of a tool that requires permission. *)
Definition promptOf (toolCall : ToolCall.t) : Event :=
  Ask (toolNameOf toolCall) (argumentsOf toolCall).

(** The single effect of an invocation when no prompt is involved: the
    call of [Execute], or the diagnostic for an unknown name. *)
Definition eventOf {W : Type} (a : Agent.t W) (toolCall : ToolCall.t) : Event :=
  match Agent.tools a !! toolNameOf toolCall with
  | Some _ => Exec (toolNameOf toolCall) (argumentsOf toolCall)
  | None => Log ("🤖 response refers to unknown tool: " +:+ toolNameOf toolCall)
  end.

(** The registered tools among [calls] run one after the other on the
    tools' state: the turns they produce and the state they leave. *)
Fixpoint runInOrder {W : Type} (a : Agent.t W) (calls : list ToolCall.t) (sys : W)
    : list Message.t * W :=
  match calls with
  | [] => ([], sys)
  | toolCall :: rest =>
      match Agent.tools a !! toolNameOf toolCall with
      | None => runInOrder a rest sys
      | Some tool =>
          let run := Tool.Execute tool (argumentsOf toolCall) sys in
          let later := runInOrder a rest run.2 in
          (Message.mk "tool" (resultText run.1) "" [] :: later.1, later.2)
      end
  end.

(** Every tool sits in the registry under its own name. *)
Definition wellKeyed {W : Type} (a : Agent.t W) : Prop :=
  forall name tool, Agent.tools a !! name = Some tool -> Tool.Name tool = name.

(** [NewAgent] followed by [RegisterTool] for each of [tools], the first of
    the list first. *)
Definition registered {W : Type} (model ollamaURL : string) (tools : list (Tool.t W))
    : Agent.t W :=
  foldl (fun a tool => RegisterTool tool a) (NewAgent model ollamaURL) tools.

Section Coverage.
Context {W : Type}.
Variable lib : GoLib.

Implicit Types (a : Agent.t W) (w : World.t W) (s : Dispatch.t W).
Implicit Types (toolCall : ToolCall.t) (events : list Event).

(** *** The registry *)

Lemma RegisterTool_wellKeyed (tool : Tool.t W) a :
  wellKeyed a -> wellKeyed (RegisterTool tool a).
Proof.
  intros Ha name tool' Hlookup. unfold RegisterTool in Hlookup. simpl in Hlookup.
  destruct (decide (Tool.Name tool = name)) as [<-|Hne].
  - rewrite lookup_insert_eq in Hlookup. by inversion Hlookup.
  - rewrite lookup_insert_ne in Hlookup by done. by apply Ha.
Qed.

(** X1. Registering a tool under a name that is already taken replaces the
    earlier tool without any error: the registry is the one that would
    have resulted from registering the later tool alone, and the name
    resolves to the later tool. *)
Theorem RegisterTool_last_wins (earlier later : Tool.t W) a :
  Tool.Name earlier = Tool.Name later ->
  RegisterTool later (RegisterTool earlier a) = RegisterTool later a /\
  Agent.tools (RegisterTool later (RegisterTool earlier a)) !! Tool.Name earlier = Some later.
Proof.
  intros Hname. unfold RegisterTool. simpl. rewrite Hname, insert_insert_eq.
  split; [done|]. apply lookup_insert_eq.
Qed.

(** X2. In every agent built by [NewAgent] and any sequence of
    [RegisterTool], each tool sits under its own name, the registry holds
    no more tools than were registered, and the conversation is empty. *)
Theorem registered_wellKeyed model ollamaURL (tools : list (Tool.t W)) :
  wellKeyed (registered model ollamaURL tools) /\
  size (Agent.tools (registered model ollamaURL tools)) <= length tools /\
  (forall tool, tool ∈ tools ->
                is_Some (Agent.tools (registered model ollamaURL tools) !! Tool.Name tool)) /\
  Agent.conversation (registered model ollamaURL tools) = [].
Proof.
  unfold registered.
  induction tools as [|tool tools IH] using rev_ind.
  - simpl. split_and!; [by intros name tool | by rewrite map_size_empty | | done].
    intros tool Hin. by apply elem_of_nil in Hin.
  - rewrite foldl_app. simpl.
    set (prev := foldl (fun a t => RegisterTool t a) (NewAgent model ollamaURL) tools) in *.
    destruct IH as (Hkeys & Hsize & Hall & Hconv).
    split_and!.
    + by apply RegisterTool_wellKeyed.
    + rewrite length_app. simpl. unfold RegisterTool. simpl.
      rewrite map_size_insert.
      destruct (Agent.tools prev !! Tool.Name tool); simpl; lia.
    + intros tool' [Hin|Hin%list_elem_of_singleton]%elem_of_app; unfold RegisterTool; simpl.
      * destruct (decide (Tool.Name tool = Tool.Name tool')) as [->|Hne].
        -- rewrite lookup_insert_eq. eauto.
        -- rewrite lookup_insert_ne by done. by apply Hall.
      * subst tool'. rewrite lookup_insert_eq. eauto.
    + done.
Qed.

(** X3. When every tool sits under its own name, a listing of the catalog
    names each registered tool exactly once and nothing else, whatever
    order the runtime ranges in; every descriptor has type [function]. *)
Theorem catalog_names_registered range a :
  wellKeyed a ->
  range_order range ->
  NoDup (toolNameOf <$> getToolDefinitions range a) /\
  (forall name, name ∈ (toolNameOf <$> getToolDefinitions range a)
                <-> is_Some (Agent.tools a !! name)) /\
  Forall (fun definition => ToolCall.Type_ definition = "function")
    (getToolDefinitions range a).
Proof.
  intros Hkeys Hrange. unfold getToolDefinitions.
  assert (Hnames : toolNameOf <$> ((fun entry : string * Tool.t W => toolDefinition entry.2)
                                     <$> map_to_list (Agent.tools a))
                   = (map_to_list (Agent.tools a)).*1).
  { rewrite <- list_fmap_compose. apply list_fmap_ext.
    intros i [name tool] Hin%list_elem_of_lookup_2%elem_of_map_to_list.
    simpl. unfold toolNameOf. simpl. by apply Hkeys. }
  assert (Hperm : toolNameOf <$> ((fun entry : string * Tool.t W => toolDefinition entry.2)
                                    <$> range (map_to_list (Agent.tools a)))
                  ≡ₚ (map_to_list (Agent.tools a)).*1).
  { rewrite <- Hnames. by rewrite (Hrange _). }
  split_and!.
  - rewrite Hperm. apply NoDup_fst_map_to_list.
  - intros name. rewrite Hperm. rewrite list_elem_of_fmap. split.
    + intros ([name' tool] & -> & Hin%elem_of_map_to_list). simpl. eauto.
    + intros [tool Hlookup]. exists (name, tool). split; [done|].
      by apply elem_of_map_to_list.
  - apply Forall_forall. intros definition Hin.
    apply list_elem_of_fmap in Hin as (entry & -> & _). done.
Qed.

(** *** The stream decoder *)

Lemma scanLoop_to_the_end tokens errAtEnd finalMessage w :
  Forall (fun chunk => OllamaResponse.Done chunk = false) (fragments lib tokens) ->
  (scanLoop lib tokens errAtEnd finalMessage w).1
  = (foldl accumulate finalMessage (fragments lib tokens), errAtEnd).
Proof.
  revert finalMessage w.
  induction tokens as [|tok tokens IH]; intros finalMessage w Hnone; [done|].
  unfold fragments in *. simpl in *.
  destruct (String.eqb (Scanner.Text tok) ""); [by apply IH|].
  destruct (json_Unmarshal lib (Scanner.Text tok)) as [chunk|err]; [|by apply IH].
  apply Forall_cons in Hnone as [Hchunk Hnone]. simpl. rewrite Hchunk. by apply IH.
Qed.

Lemma foldl_accumulate_no_calls chunks finalMessage :
  Forall (fun chunk => Message.ToolCalls (OllamaResponse.Message chunk) = []) chunks ->
  Message.ToolCalls (foldl accumulate finalMessage chunks) = Message.ToolCalls finalMessage.
Proof.
  intros Hchunks. revert finalMessage.
  induction Hchunks as [|chunk chunks Hchunk _ IH]; intros finalMessage; [done|].
  simpl. rewrite IH. unfold accumulate. simpl. by rewrite Hchunk.
Qed.

(** X4. A stream that ends without any fragment marked [done] is not an
    error of the decoder: every well-formed fragment is folded into the
    message, and the error reported is whatever the scanner reports at the
    end of the body. *)
Theorem stream_without_done tokens errAtEnd finalMessage w :
  Forall (fun chunk => OllamaResponse.Done chunk = false) (fragments lib tokens) ->
  (scanLoop lib tokens errAtEnd finalMessage w).1.1
    = foldl accumulate finalMessage (fragments lib tokens) /\
  (scanLoop lib tokens errAtEnd finalMessage w).1.2 = errAtEnd.
Proof. intros Hnone. by rewrite scanLoop_to_the_end. Qed.

(** X5. Once a fragment marked [done] is read, nothing after it is read:
    the lines that follow change neither the message nor the effects, and
    the error reported is the one pending at that fragment, not the one at
    the end of the body. *)
Theorem nothing_read_after_done pre tok post errAtEnd finalMessage w chunk :
  Forall (fun chunk => OllamaResponse.Done chunk = false) (fragments lib pre) ->
  Scanner.Text tok <> "" ->
  json_Unmarshal lib (Scanner.Text tok) = Ok chunk ->
  OllamaResponse.Done chunk = true ->
  scanLoop lib (pre ++ tok :: post) errAtEnd finalMessage w
    = scanLoop lib (pre ++ [tok]) None finalMessage w /\
  (scanLoop lib (pre ++ tok :: post) errAtEnd finalMessage w).1.2 = Scanner.ErrPending tok.
Proof.
  intros Hpre Hnonempty%String.eqb_neq Hchunk Hdone.
  revert finalMessage w. induction pre as [|first pre IH]; intros finalMessage w; simpl.
  - by rewrite Hnonempty, Hchunk, Hdone.
  - unfold fragments in Hpre. simpl in Hpre.
    destruct (String.eqb (Scanner.Text first) ""); [by apply IH|].
    destruct (json_Unmarshal lib (Scanner.Text first)) as [chunk'|err]; [|by apply IH].
    apply Forall_cons in Hpre as [-> Hpre]. by apply IH.
Qed.

(** X6. Invocations are replaced, not collected: when the fragments read
    carry tool calls more than once, the message keeps the list of the
    last fragment that has any, and the lists of earlier fragments are
    lost. *)
Theorem tool_calls_not_merged tokens errAtEnd w pre chunk post :
  uptoDone (fragments lib tokens) = pre ++ chunk :: post ->
  Message.ToolCalls (OllamaResponse.Message chunk) <> [] ->
  Forall (fun later => Message.ToolCalls (OllamaResponse.Message later) = []) post ->
  Message.ToolCalls (scanLoop lib tokens errAtEnd Message.zero w).1.1
    = Message.ToolCalls (OllamaResponse.Message chunk).
Proof.
  intros Hread Hcalls Hpost.
  rewrite scanLoop_message, Hread, foldl_app. simpl.
  rewrite foldl_accumulate_no_calls by done.
  unfold accumulate. simpl.
  by destruct (Message.ToolCalls (OllamaResponse.Message chunk)).
Qed.

(** X7. An answer in which no line is a well-formed fragment (an empty
    body, blank lines, lines that do not parse) is not an error either:
    the round-trip appends an assistant turn with no role, no text and no
    invocation, and tells the loop to stop. *)
Theorem empty_answer_appended (round : Round.t W) a w jsonData request body :
  json_MarshalIndent lib (requestOf round a) = Ok jsonData ->
  http_NewRequest lib "POST" (Agent.ollamaURL a +:+ "/api/chat") jsonData = Ok request ->
  Round.Do round request = Ok body ->
  fragments lib (Scanner.Tokens body) = [] ->
  Scanner.ErrAtEnd body = None ->
  (processOneResponse lib round a w).1 = ((false, None), appendMessage Message.zero a).
Proof.
  intros Hmarshal Hrequest Hdo Hnone Hclean.
  unfold processOneResponse, roundTrip. fold (requestOf round a).
  rewrite Hmarshal, Hrequest, Hdo.
  pose proof (scanLoop_to_the_end (Scanner.Tokens body) (Scanner.ErrAtEnd body) Message.zero
                (emit (HttpDo request) (emit SpinnerStart w))) as Hscan.
  rewrite Hnone in Hscan. specialize (Hscan (Forall_nil_2 _)). rewrite Hclean in Hscan |- *.
  destruct (scanLoop lib _ _ _ _) as [[finalMessage scanErr] w1].
  simpl in Hscan. by inversion Hscan.
Qed.

(** *** The tool loop *)

Lemma askPermission_stdin toolName params w :
  World.stdin (askPermission lib toolName params w).2 = drop 1 (World.stdin w).
Proof.
  unfold askPermission, readInput. simpl.
  destruct (World.stdin w) eqn:Hstdin; simpl; by rewrite ?Hstdin.
Qed.

Lemma toolStep_tools s toolCall :
  Agent.tools (Dispatch.agent (toolStep lib s toolCall)) = Agent.tools (Dispatch.agent s).
Proof. destruct (toolStep_spec lib s toolCall) as (turns & events & -> & _). done. Qed.

(** The prompts and the lines read in one pass through the loop body. *)
Lemma toolStep_prompts s toolCall :
  exists events,
    World.trace (Dispatch.world (toolStep lib s toolCall))
      = World.trace (Dispatch.world s) ++ events /\
    List.filter isAsk events
      = (if sensitive (Dispatch.agent s) toolCall then [promptOf toolCall] else []) /\
    World.stdin (Dispatch.world (toolStep lib s toolCall))
      = drop (if sensitive (Dispatch.agent s) toolCall then 1 else 0)
          (World.stdin (Dispatch.world s)).
Proof.
  unfold sensitive.
  destruct (Agent.tools (Dispatch.agent s) !! toolNameOf toolCall) as [tool|] eqn:Hlookup.
  - destruct (Tool.RequiresPermission tool) eqn:Hperm;
      [destruct (askPermission lib (toolNameOf toolCall) (argumentsOf toolCall) (Dispatch.world s)).1
         eqn:Hask|].
    + rewrite (toolStep_executed lib s toolCall tool) by done.
      unfold cleared. rewrite Hperm. simpl.
      rewrite askPermission_trace, askPermission_stdin, <- app_assoc. by eexists.
    + rewrite (toolStep_denied lib s toolCall tool) by done. simpl.
      rewrite askPermission_trace, askPermission_stdin. by eexists.
    + rewrite (toolStep_executed lib s toolCall tool) by (done || congruence).
      unfold cleared. rewrite Hperm. simpl. by eexists.
  - rewrite toolStep_unknown by done. simpl. by eexists.
Qed.

(** What [k] calls of [readInput] in a row leave of standard input. *)
Definition afterReads (k : nat) (w : World.t W) : World.t W :=
  Nat.iter k (fun w => (readInput w).2) w.

Lemma afterReads_stdin k w : World.stdin (afterReads k w) = drop k (World.stdin w).
Proof.
  induction k as [|k IH]; [done|].
  change (afterReads (S k) w) with (readInput (afterReads k w)).2.
  assert (Hread : forall w', World.stdin (readInput w').2 = drop 1 (World.stdin w')).
  { intros w'. unfold readInput. destruct (World.stdin w') eqn:Hstdin; simpl; by rewrite ?Hstdin. }
  rewrite Hread, IH, drop_drop. f_equal. lia.
Qed.

Lemma toolLoop_prompts calls s :
  exists events,
    World.trace (Dispatch.world (toolLoop lib calls s))
      = World.trace (Dispatch.world s) ++ events /\
    List.filter isAsk events
      = promptOf <$> List.filter (sensitive (Dispatch.agent s)) calls /\
    World.stdin (Dispatch.world (toolLoop lib calls s))
      = drop (length (List.filter (sensitive (Dispatch.agent s)) calls))
          (World.stdin (Dispatch.world s)).
Proof.
  revert s. induction calls as [|toolCall calls IH]; intros s.
  - exists []. simpl. by rewrite app_nil_r.
  - destruct (toolStep_prompts s toolCall) as (events1 & Htrace1 & Hasks1 & Hstdin1).
    destruct (IH (toolStep lib s toolCall)) as (events2 & Htrace2 & Hasks2 & Hstdin2).
    assert (Hsame : forall call, sensitive (Dispatch.agent (toolStep lib s toolCall)) call
                                 = sensitive (Dispatch.agent s) call).
    { intros call. unfold sensitive. by rewrite toolStep_tools. }
    rewrite (List.filter_ext _ _ Hsame) in Hasks2, Hstdin2.
    exists (events1 ++ events2).
    change (toolLoop lib (toolCall :: calls) s)
      with (toolLoop lib calls (toolStep lib s toolCall)).
    rewrite Htrace2, Htrace1, Hstdin2, Hstdin1, List.filter_app, Hasks1, Hasks2, <- app_assoc.
    simpl. destruct (sensitive (Dispatch.agent s) toolCall); simpl.
    + split_and!; try done. rewrite drop_drop. f_equal.
    + done.
Qed.

(** X8. The operator is asked once for every invocation of a tool that
    requires permission, in the order of the invocations and with the
    invocation's own arguments, and never for any other invocation;
    [readInput] is called once for every prompt and nowhere else in the
    loop: what the loop leaves of standard input is what that many calls
    of [readInput] leave of it, however much of the input one call takes. *)
Theorem prompts_follow_sensitive calls s :
  exists events,
    World.trace (Dispatch.world (toolLoop lib calls s))
      = World.trace (Dispatch.world s) ++ events /\
    List.filter isAsk events
      = promptOf <$> List.filter (sensitive (Dispatch.agent s)) calls /\
    World.stdin (Dispatch.world (toolLoop lib calls s))
      = World.stdin
          (afterReads (length (List.filter isAsk events)) (Dispatch.world s)).
Proof.
  destruct (toolLoop_prompts calls s) as (events & Htrace & Hasks & Hstdin).
  exists events. split_and!; [done|done|].
  by rewrite afterReads_stdin, Hasks, length_fmap.
Qed.

Lemma runInOrder_withTurns a turns calls (sys : W) :
  runInOrder (withTurns a turns) calls sys = runInOrder a calls sys.
Proof.
  revert sys. induction calls as [|toolCall calls IH]; intros sys; [done|].
  simpl. destruct (Agent.tools a !! toolNameOf toolCall); by rewrite IH.
Qed.

Lemma eventOf_withTurns a turns toolCall :
  eventOf (withTurns a turns) toolCall = eventOf a toolCall.
Proof. reflexivity. Qed.

Lemma known_filter_withTurns a turns (calls : list ToolCall.t) :
  filter (known (withTurns a turns)) calls = filter (known a) calls.
Proof. by apply list_filter_iff. Qed.

(** X9. When no invocation resolves to a tool that requires permission,
    the loop is the registered tools run one after the other, each on the
    state its predecessor left: one effect per invocation in the order of
    the invocations (the call of [Execute], or the diagnostic for an
    unknown name), one turn per registered tool, every one of them counted,
    the flag left alone and standard input not read. *)
Theorem free_tools_run_in_order calls s :
  Forall (fun toolCall => sensitive (Dispatch.agent s) toolCall = false) calls ->
  toolLoop lib calls s
  = Dispatch.mk
      (Dispatch.toolsExecuted s + length (filter (known (Dispatch.agent s)) calls))
      (Dispatch.anyToolRequiredPermission s)
      (withTurns (Dispatch.agent s)
         (runInOrder (Dispatch.agent s) calls (World.sys (Dispatch.world s))).1)
      (World.mk (World.stdin (Dispatch.world s))
         (World.trace (Dispatch.world s) ++ (eventOf (Dispatch.agent s) <$> calls))
         (runInOrder (Dispatch.agent s) calls (World.sys (Dispatch.world s))).2).
Proof.
  intros Hfree. revert s Hfree.
  induction calls as [|toolCall calls IH]; intros [executed any a w] Hfree; simpl in *.
  - rewrite withTurns_nil, app_nil_r, Nat.add_0_r. by destruct w.
  - apply Forall_cons in Hfree as [Hcall Hfree].
    change (toolLoop lib (toolCall :: calls) (Dispatch.mk executed any a w))
      with (toolLoop lib calls (toolStep lib (Dispatch.mk executed any a w) toolCall)).
    change (filter (known a) (toolCall :: calls))
      with (filter (known a) ([toolCall] ++ calls)).
    rewrite filter_app, filter_known_one, length_app.
    unfold sensitive in Hcall. unfold eventOf at 1.
    destruct (Agent.tools a !! toolNameOf toolCall) as [tool|] eqn:Hlookup.
    + rewrite (toolStep_executed lib _ toolCall tool) by (done || simpl; congruence).
      unfold cleared. simpl. rewrite Hcall. simpl.
      rewrite IH by done. simpl.
      rewrite appendMessage_withTurns, withTurns_app, <- app_assoc. simpl.
      rewrite runInOrder_withTurns, known_filter_withTurns.
      rewrite orb_false_r. f_equal. lia.
    + rewrite toolStep_unknown by done.
      rewrite IH by done. simpl. rewrite <- app_assoc. simpl. done.
Qed.

End Coverage.

(** * The progress spinner ([pretty.Spinner]) *)

(** [type Spinner struct].  [Start] and [Stop] run under the mutex, so for
    their one caller they are steps on the flag [active].  The animation
    goroutine and the channel [done] are represented by what happens to
    them: [launched] counts the goroutines [Start] has launched, [sent] the
    values [Stop] has sent on [done] (each ends one goroutine). *)
Module Spinner.
Record t : Type := mk {
  active : bool;
  message : string;
  launched : nat;
  sent : nat
}.

Definition NewSpinner (message : string) : t := mk false message 0 0.

Definition Start (this : t) : t :=
  if active this then this
  else mk true (message this) (S (launched this)) (sent this).

Definition Stop (this : t) : t :=
  if negb (active this) then this
  else mk false (message this) (launched this) (S (sent this)).
End Spinner.

(** The spinner of a round-trip following the events of the round-trip. *)
Definition spin (this : Spinner.t) (e : Event) : Spinner.t :=
  match e with
  | SpinnerStart => Spinner.Start this
  | SpinnerStop => Spinner.Stop this
  | _ => this
  end.

(** A call of one of the two methods. *)
Inductive SpinnerCall : Type := CallStart | CallStop.

Definition callSpinner (this : Spinner.t) (call : SpinnerCall) : Spinner.t :=
  match call with
  | CallStart => Spinner.Start this
  | CallStop => Spinner.Stop this
  end.

Section SpinnerProperties.
Context {W : Type}.
Variable lib : GoLib.

Lemma spin_inactive events (this : Spinner.t) :
  Spinner.active this = false ->
  roundTrips events = 0 ->
  foldl spin this events = this.
Proof.
  revert this. induction events as [|e events IH]; intros this Hidle Hnone; [done|].
  unfold roundTrips in *. rewrite occurrences_cons in Hnone.
  destruct e; simpl in *; try lia; try (apply IH; [done | lia]).
  unfold Spinner.Stop. rewrite Hidle. simpl. apply IH; [done | lia].
Qed.

Lemma spin_active events (this : Spinner.t) :
  Spinner.active this = true ->
  roundTrips events = 0 ->
  foldl spin this events = this \/ foldl spin this events = Spinner.Stop this.
Proof.
  revert this. induction events as [|e events IH]; intros this Hbusy Hnone; [by left|].
  unfold roundTrips in *. rewrite occurrences_cons in Hnone.
  destruct e; simpl in *; try lia; try (apply IH; [done | lia]).
  right. apply spin_inactive; [|unfold roundTrips; lia].
  unfold Spinner.Stop. by rewrite Hbusy.
Qed.

(** The events between [spinner.Start()] and the deferred [spinner.Stop()]
    hold no second start. *)
Lemma roundTrip_trace (round : Round.t W) (a : Agent.t W) (w : World.t W) :
  exists events,
    World.trace (roundTrip lib round a w).2 = World.trace w ++ events /\
    roundTrips events = 0.
Proof.
  unfold roundTrip.
  destruct (json_MarshalIndent lib _) as [jsonData|e].
  2: { exists []. simpl. by rewrite app_nil_r. }
  destruct (http_NewRequest lib _ _ _) as [request|e].
  2: { exists []. simpl. by rewrite app_nil_r. }
  destruct (Round.Do round request) as [body|e].
  2: { by exists [HttpDo request]. }
  pose proof (scanLoop_world lib (Scanner.Tokens body) (Scanner.ErrAtEnd body) Message.zero
                (emit (HttpDo request) w))
    as (events1 & Htrace1 & Hstarts1 & _).
  destruct (scanLoop lib _ _ _ _) as [[finalMessage scanErr] w1].
  simpl in Htrace1. destruct scanErr as [e|].
  - exists ([HttpDo request] ++ events1 ++ [SpinnerStop]).
    simpl. rewrite Htrace1, <- !app_assoc. split; [done|].
    unfold roundTrips in *. rewrite occurrences_cons, occurrences_app, Hstarts1. done.
  - destruct (toolLoop_spec lib (Message.ToolCalls finalMessage)
                (Dispatch.mk 0 false (appendMessage finalMessage a) w1))
      as (turns & events2 & _ & Htrace2 & _ & Hstarts2 & _).
    simpl in Htrace2.
    exists ([HttpDo request] ++ events1 ++ events2).
    simpl. rewrite Htrace2, Htrace1, <- !app_assoc. split; [done|].
    unfold roundTrips in *. rewrite occurrences_cons, occurrences_app, Hstarts1, Hstarts2. done.
Qed.

(** X10. Whatever the outcome of a round-trip and however many times it
    calls [Stop], its spinner launches one animation, sends one stop
    signal for it, and is inactive at the end. *)
Theorem spinner_stopped_once (round : Round.t W) (a : Agent.t W) (w : World.t W) :
  exists events,
    World.trace (processOneResponse lib round a w).2 = World.trace w ++ events /\
    foldl spin (Spinner.NewSpinner "Waiting for response...") events
      = Spinner.mk false "Waiting for response..." 1 1.
Proof.
  unfold processOneResponse.
  destruct (roundTrip_trace round a (emit SpinnerStart w)) as (events & Htrace & Hnone).
  destruct (roundTrip lib round a (emit SpinnerStart w)) as [[ret a1] w1].
  simpl in *. exists ([SpinnerStart] ++ events ++ [SpinnerStop]).
  rewrite Htrace, <- !app_assoc. split; [done|].
  rewrite !foldl_app. simpl.
  destruct (spin_active events
              (Spinner.Start (Spinner.NewSpinner "Waiting for response...")) eq_refl Hnone)
    as [-> | ->]; reflexivity.
Qed.

(** X11. Over any sequence of calls of [Start] and [Stop] on a new
    spinner: at most one animation runs at a time, a stop signal is only
    ever sent to an animation that is running, and the spinner is active
    exactly while one is; calling either method twice in a row is calling
    it once. *)
Theorem spinner_invariant message (calls : list SpinnerCall) :
  let this := foldl callSpinner (Spinner.NewSpinner message) calls in
  Spinner.launched this
    = Spinner.sent this + (if Spinner.active this then 1 else 0) /\
  Spinner.Stop (Spinner.Stop this) = Spinner.Stop this /\
  Spinner.Start (Spinner.Start this) = Spinner.Start this.
Proof.
  simpl. split_and!.
  - induction calls as [|call calls IH] using rev_ind; [done|].
    rewrite foldl_app. simpl.
    destruct (foldl callSpinner (Spinner.NewSpinner message) calls) as [[] msg launched sent];
      destruct call; simpl in *; lia.
  - by destruct (foldl callSpinner (Spinner.NewSpinner message) calls) as [[] ? ? ?].
  - by destruct (foldl callSpinner (Spinner.NewSpinner message) calls) as [[] ? ? ?].
Qed.

End SpinnerProperties.

(** * The session loop ([main]) *)

Definition newline : string := String (ascii_of_nat 10) EmptyString.

(** [strings.Repeat] *)
Fixpoint Repeat (s : string) (count : nat) : string :=
  match count with
  | 0 => ""
  | S count => s +:+ Repeat s count
  end.

(** What [main]'s loop works on: the agent, the surroundings, what the loop
    itself has printed (the engine's own display is left out, as before),
    and how many messages it has handed to the agent. *)
Module Session.
Record t (W : Type) : Type := mk {
  agent : Agent.t W;
  world : World.t W;
  stdout : list string;
  messages : nat
}.
Arguments mk {W}.
Arguments agent {W}.
Arguments world {W}.
Arguments stdout {W}.
Arguments messages {W}.
End Session.

(** [agent.conversation = agent.conversation[:0]] *)
Definition clearConversation {W : Type} (a : Agent.t W) : Agent.t W :=
  Agent.mk (Agent.model a) (Agent.ollamaURL a) (Agent.tools a) [].

(** One pass through the body of [for { ... }] in [main]: whether the loop
    goes on, and the session after it.  [script n] is what the
    surroundings do during the [n]-th message. *)
Definition mainStep {W : Type} (lib : GoLib) (script : nat -> nat -> Round.t W)
    (st : Session.t W) : bool * Session.t W :=
  let out := Session.stdout st ++ [Repeat "#" 80 +:+ newline; "You: "] in
  let '(input, w) := readInput (Session.world st) in
  if String.eqb input "" then
    (true, Session.mk (Session.agent st) w out (Session.messages st))
  else if String.eqb input "exit" then
    (false, Session.mk (Session.agent st) w (out ++ ["Goodbye!" +:+ newline])
              (Session.messages st))
  else if String.eqb input "clear" then
    (true, Session.mk (clearConversation (Session.agent st)) w
             (out ++ ["Conversation history cleared." +:+ newline]) (Session.messages st))
  else
    let '(err, a, w) :=
      ProcessMessage lib input (script (Session.messages st)) (Session.agent st) w in
    let out := match err with
               | Some e => out ++ ["Error: " +:+ e +:+ newline]
               | None => out
               end in
    (true, Session.mk a w (out ++ [newline]) (S (Session.messages st))).

(** [passes] passes through the loop: whether it has left the loop, and the
    session then. *)
Fixpoint mainLoop {W : Type} (lib : GoLib) (passes : nat) (script : nat -> nat -> Round.t W)
    (st : Session.t W) : bool * Session.t W :=
  match passes with
  | 0 => (false, st)
  | S passes =>
      let '(goOn, st) := mainStep lib script st in
      if goOn then mainLoop lib passes script st else (true, st)
  end.

Section SessionProperties.
Context {W : Type}.
Variable lib : GoLib.

Implicit Types (a : Agent.t W) (w : World.t W) (st : Session.t W).

Lemma toolLoop_stdin calls (s : Dispatch.t W) :
  exists k, World.stdin (Dispatch.world (toolLoop lib calls s))
            = drop k (World.stdin (Dispatch.world s)).
Proof.
  revert s. induction calls as [|toolCall calls IH]; intros s.
  - by exists 0.
  - destruct (toolStep_prompts lib s toolCall) as (events & _ & _ & Hstep).
    destruct (IH (toolStep lib s toolCall)) as (k & Hrest).
    change (toolLoop lib (toolCall :: calls) s)
      with (toolLoop lib calls (toolStep lib s toolCall)).
    rewrite Hrest, Hstep, drop_drop. by eexists.
Qed.

Lemma processOneResponse_stdin (round : Round.t W) a w :
  exists k, World.stdin (processOneResponse lib round a w).2 = drop k (World.stdin w).
Proof.
  unfold processOneResponse, roundTrip.
  destruct (json_MarshalIndent lib _) as [jsonData|e]; [|by exists 0].
  destruct (http_NewRequest lib _ _ _) as [request|e]; [|by exists 0].
  destruct (Round.Do round request) as [body|e]; [|by exists 0].
  pose proof (scanLoop_world lib (Scanner.Tokens body) (Scanner.ErrAtEnd body) Message.zero
                (emit (HttpDo request) (emit SpinnerStart w)))
    as (events1 & _ & _ & _ & _ & Hstdin1 & _).
  destruct (scanLoop lib _ _ _ _) as [[finalMessage scanErr] w1].
  simpl in Hstdin1. destruct scanErr as [e|]; [by exists 0|].
  destruct (toolLoop_stdin (Message.ToolCalls finalMessage)
              (Dispatch.mk 0 false (appendMessage finalMessage a) w1)) as (k & Hstdin2).
  exists k. simpl in *. by rewrite Hstdin2, Hstdin1.
Qed.

Lemma agenticLoop_stdin rounds remaining iteration a w :
  exists k, World.stdin (agenticLoop lib remaining iteration rounds a w).2
            = drop k (World.stdin w).
Proof.
  revert iteration a w. induction remaining as [|remaining IH]; intros iteration a w.
  - by exists 0.
  - simpl. destruct (processOneResponse_stdin (rounds iteration) a w) as (k1 & Hstdin1).
    destruct (processOneResponse lib (rounds iteration) a w) as [[[goOn err] a1] w1].
    simpl in Hstdin1. destruct err as [e|]; [by exists k1|].
    destruct goOn; simpl; [|by exists k1].
    destruct (IH (S iteration) a1 (emit (Continuing (iteration + 2) maxIterations) w1))
      as (k2 & ->).
    simpl. rewrite Hstdin1, drop_drop. by eexists.
Qed.

Lemma readInput_stdin w : World.stdin (readInput w).2 = drop 1 (World.stdin w).
Proof. unfold readInput. destruct (World.stdin w) eqn:Hstdin; simpl; by rewrite ?Hstdin. Qed.

Lemma readInput_line w :
  (readInput w).1 = "" \/ (readInput w).1 ∈ World.stdin w.
Proof.
  unfold readInput. destruct (World.stdin w) as [|line rest]; [by left|].
  right. simpl. apply elem_of_cons. by left.
Qed.

Lemma mainLoop_pass script passes st :
  mainLoop lib (S passes) script st
  = if (mainStep lib script st).1 then mainLoop lib passes script (mainStep lib script st).2
    else (true, (mainStep lib script st).2).
Proof. simpl. by destruct (mainStep lib script st) as [[] st']. Qed.

Lemma mainStep_clear script st rest :
  World.stdin (Session.world st) = "clear" :: rest ->
  mainStep lib script st
  = (true,
     Session.mk (clearConversation (Session.agent st))
       (World.mk rest (World.trace (Session.world st)) (World.sys (Session.world st)))
       (Session.stdout st
        ++ [Repeat "#" 80 +:+ newline; "You: "; "Conversation history cleared." +:+ newline])
       (Session.messages st)).
Proof.
  intros Hstdin. unfold mainStep, readInput. rewrite Hstdin.
  cbv beta iota zeta. change ("clear" =? "")%string with false.
  change ("clear" =? "exit")%string with false. change ("clear" =? "clear")%string with true.
  cbv beta iota. by rewrite <- app_assoc.
Qed.

Lemma mainStep_message script st message rest :
  World.stdin (Session.world st) = message :: rest ->
  message <> "" ->
  message <> "exit" ->
  message <> "clear" ->
  let run := ProcessMessage lib message (script (Session.messages st)) (Session.agent st)
               (World.mk rest (World.trace (Session.world st)) (World.sys (Session.world st))) in
  mainStep lib script st
  = (true,
     Session.mk run.1.2 run.2
       (Session.stdout st
        ++ [Repeat "#" 80 +:+ newline; "You: "]
        ++ match run.1.1 with Some e => ["Error: " +:+ e +:+ newline] | None => [] end
        ++ [newline])
       (S (Session.messages st))).
Proof.
  intros Hstdin Hfilled%String.eqb_neq Hstay%String.eqb_neq Hkeep%String.eqb_neq.
  cbv zeta. unfold mainStep, readInput. rewrite Hstdin.
  cbv beta iota zeta. rewrite Hfilled, Hstay, Hkeep.
  destruct (ProcessMessage lib message _ _ _) as [[[e|] a2] w2];
    cbv beta iota zeta; simpl fst; simpl snd; by rewrite <- ?app_assoc.
Qed.

Lemma agenticLoop_failure rounds remaining iteration a w e :
  transportFailure lib (rounds iteration) a e ->
  agenticLoop lib (S remaining) iteration rounds a w
    = (Some e, a, (processOneResponse lib (rounds iteration) a w).2) /\
  World.stdin (processOneResponse lib (rounds iteration) a w).2 = World.stdin w.
Proof.
  intros Hfailure.
  pose proof (transportFailure_returned lib (rounds iteration) a w e Hfailure) as Hret.
  destruct (processOneResponse_spec lib (rounds iteration) a w) as (events & _ & _ & _ & Hspec).
  simpl.
  destruct (processOneResponse lib (rounds iteration) a w) as [[ret a1] w1].
  simpl in *. subst ret. simpl in Hspec.
  by destruct Hspec as (_ & -> & _ & _ & -> & _).
Qed.

Lemma mainLoop_stays script passes st :
  "exit" ∉ World.stdin (Session.world st) ->
  (mainLoop lib passes script st).1 = false.
Proof.
  revert st. induction passes as [|passes IH]; intros st Hnone; [done|].
  simpl. unfold mainStep.
  pose proof (readInput_stdin (Session.world st)) as Hrest.
  pose proof (readInput_line (Session.world st)) as Hline.
  destruct (readInput (Session.world st)) as [input w1]. simpl in Hrest, Hline.
  assert (Hnone1 : "exit" ∉ World.stdin w1).
  { rewrite Hrest. intros Hin. apply Hnone. by eapply subseteq_drop. }
  destruct (String.eqb_spec input "") as [->|Hfilled]; [by apply IH|].
  destruct (String.eqb_spec input "exit") as [->|Hstay].
  { exfalso. by destruct Hline. }
  destruct (String.eqb_spec input "clear") as [->|Hkeep]; [by apply IH|].
  unfold ProcessMessage.
  destruct (agenticLoop_stdin (script (Session.messages st)) maxIterations 0
              (appendMessage (Message.mk "user" input "" []) (Session.agent st)) w1)
    as (k & Hstdin).
  destruct (agenticLoop lib maxIterations 0 _ _ _) as [[err a2] w2].
  simpl in Hstdin. apply IH. simpl. rewrite Hstdin.
  intros Hin. apply Hnone1. by eapply subseteq_drop.
Qed.

Lemma mainStep_leaves script st :
  (mainStep lib script st).1 = false <-> head (World.stdin (Session.world st)) = Some "exit".
Proof.
  unfold mainStep, readInput.
  destruct (World.stdin (Session.world st)) as [|input rest]; [done|].
  cbv beta iota zeta. simpl head.
  destruct (String.eqb_spec input "") as [->|Hfilled]; [done|].
  destruct (String.eqb_spec input "exit") as [->|Hstay]; [done|].
  destruct (String.eqb_spec input "clear") as [->|Hkeep]; [done|].
  destruct (ProcessMessage lib input _ _ _) as [[err a2] w2]. simpl.
  split; [done|]. intros [= ->]. done.
Qed.

(** X12. The session ends on [exit] and on nothing else, where what counts
    is what [readInput] returns: a pass through the loop of [main] leaves
    the loop exactly when the string it reads, the next of
    [World.stdin], is [exit] (never at the end of the input); it then
    prints the farewell and has taken that one string; and as long as none
    of the strings [readInput] is going to return is exactly [exit], the
    loop is never left, however many passes it makes. *)
Theorem session_ends_only_on_exit script passes st :
  ((mainStep lib script st).1 = false <->
   head (World.stdin (Session.world st)) = Some "exit") /\
  ((mainStep lib script st).1 = false ->
   Session.stdout (mainStep lib script st).2
     = Session.stdout st ++ [Repeat "#" 80 +:+ newline; "You: "; "Goodbye!" +:+ newline] /\
   World.stdin (Session.world (mainStep lib script st).2)
     = tail (World.stdin (Session.world st))) /\
  ("exit" ∉ World.stdin (Session.world st) ->
   (mainLoop lib passes script st).1 = false).
Proof.
  split_and!.
  - apply mainStep_leaves.
  - intros Hleft%mainStep_leaves. unfold mainStep, readInput.
    destruct (World.stdin (Session.world st)) as [|input rest]; [done|].
    injection Hleft as ->. cbv beta iota zeta.
    change ("exit" =? "")%string with false. change ("exit" =? "exit")%string with true.
    cbv beta iota. simpl. by rewrite <- app_assoc.
  - apply mainLoop_stays.
Qed.

(** X13. When standard input has ended, every pass through the loop of
    [main] prints the separator and the prompt again and changes nothing
    else: the loop spins without ever leaving. *)
Theorem session_spins_at_end_of_input script passes st :
  World.stdin (Session.world st) = [] ->
  mainLoop lib passes script st
  = (false,
     Session.mk (Session.agent st) (Session.world st)
       (Session.stdout st ++ concat (replicate passes [Repeat "#" 80 +:+ newline; "You: "]))
       (Session.messages st)).
Proof.
  revert st. induction passes as [|passes IH]; intros [a w out n] Hended; simpl in *.
  - by rewrite app_nil_r.
  - unfold mainStep, readInput. simpl. rewrite Hended. simpl.
    rewrite IH by done. simpl. by rewrite <- app_assoc.
Qed.

(** X14. After the line [clear], the next message starts the history
    afresh: whatever was said before, the conversation after that message
    begins with its user turn; the registry is the same. *)
Theorem clear_forgets_history script st message rest :
  World.stdin (Session.world st) = "clear" :: message :: rest ->
  message <> "" ->
  message <> "exit" ->
  message <> "clear" ->
  exists turns,
    (mainLoop lib 2 script st).1 = false /\
    Agent.conversation (Session.agent (mainLoop lib 2 script st).2)
      = Message.mk "user" message "" [] :: turns /\
    Agent.tools (Session.agent (mainLoop lib 2 script st).2)
      = Agent.tools (Session.agent st).
Proof.
  intros Hstdin Hfilled Hstay Hkeep.
  rewrite !mainLoop_pass, (mainStep_clear script st (message :: rest) Hstdin).
  cbv beta iota. simpl fst. simpl snd.
  rewrite (mainStep_message script _ message rest) by done.
  cbv zeta. simpl fst. simpl snd. cbv beta iota. simpl Session.agent.
  unfold ProcessMessage.
  destruct (agenticLoop_spec lib (script (Session.messages st)) maxIterations 0
              (appendMessage (Message.mk "user" message "" [])
                 (clearConversation (Session.agent st)))
              (World.mk rest (World.trace (Session.world st)) (World.sys (Session.world st))))
    as (turns & events & Hagent & _).
  exists turns. simpl Session.messages. simpl Session.world. simpl World.trace. simpl World.sys.
  rewrite Hagent. done.
Qed.

(** X15. A message whose first round-trip fails at the transport does not
    end the session and is not taken back: the loop prints the error and
    goes on to the next line, and the user turn stays at the end of the
    history. *)
Theorem failed_message_stays script st message rest e :
  World.stdin (Session.world st) = message :: rest ->
  message <> "" ->
  message <> "exit" ->
  message <> "clear" ->
  transportFailure lib (script (Session.messages st) 0)
    (appendMessage (Message.mk "user" message "" []) (Session.agent st)) e ->
  (mainStep lib script st).1 = true /\
  Session.agent (mainStep lib script st).2
    = appendMessage (Message.mk "user" message "" []) (Session.agent st) /\
  Session.stdout (mainStep lib script st).2
    = Session.stdout st
      ++ [Repeat "#" 80 +:+ newline; "You: "; "Error: " +:+ e +:+ newline; newline] /\
  World.stdin (Session.world (mainStep lib script st).2) = rest.
Proof.
  intros Hstdin Hfilled Hstay Hkeep Hfailure.
  rewrite (mainStep_message script st message rest) by done.
  cbv zeta. unfold ProcessMessage.
  destruct (agenticLoop_failure (script (Session.messages st)) 9 0 _
              (World.mk rest (World.trace (Session.world st)) (World.sys (Session.world st)))
              e Hfailure) as [Hloop Hrest].
  change maxIterations with 10. rewrite Hloop. simpl fst. simpl snd.
  split_and!; try done.
Qed.

End SessionProperties.

(** * The tools that change the system ([package tools]) *)

(** An [error] of package [os], with what [errors.Is(err, os.ErrNotExist)]
    says of it. *)
Module OSError.
Record t : Type := mk {
  Message : string;
  IsNotExist : bool
}.
End OSError.

(** The operating system and library calls of the tools, over the state
    [W] they act on: [os.ReadFile] (data and error), [os.WriteFile] with
    mode 0644, [exec.Command(name, args...).CombinedOutput()], and
    [strings.ReplaceAll]. *)
Record OS (W : Type) : Type := mkOS {
  os_ReadFile : string -> W -> string * option OSError.t;
  os_WriteFile : string -> string -> W -> option string * W;
  exec_CombinedOutput : string -> list string -> W -> (string * option string) * W;
  strings_ReplaceAll : string -> string -> string -> string
}.
Arguments mkOS {W}.
Arguments os_ReadFile {W}.
Arguments os_WriteFile {W}.
Arguments exec_CombinedOutput {W}.
Arguments strings_ReplaceAll {W}.

(** The type assertion [v, ok := params[key].(string)]. *)
Definition stringParam (params : Params) (key : string) : string * bool :=
  match params !! key with
  | Some (JString s) => (s, true)
  | _ => ("", false)
  end.

(** The schema every tool returns from [Parameters()]: an object with the
    given string properties, of which [required] are required. *)
Definition schema (properties : list (string * string)) (required : list string) : Params :=
  {[ "type" := JString "object";
     "properties" :=
       JObject ((fun property =>
                   (property.1,
                    JObject [("type", JString "string");
                             ("description", JString property.2)])) <$> properties);
     "required" := JArray (JString <$> required) ]}.

Section Tools.
Context {W : Type}.
Variable os : OS W.

Definition WriteFileTool : Tool.t W :=
  Tool.mk "write_file" "Write a file. If the file already exists, it will be overwritten."
    (schema [("path", "Path to the file to write.");
             ("content", "The content to write to the file.")] ["path"])
    (fun params sys =>
       let '(path, ok) := stringParam params "path" in
       if negb ok then (("", Some "path parameter must be a string"), sys)
       else
         let '(replace, ok) := stringParam params "content" in
         if negb ok then (("", Some "content parameter must be a string"), sys)
         else
           let '(err, sys) := os_WriteFile os path replace sys in
           ((replace, err), sys))
    true.

Definition ModifyFileTool : Tool.t W :=
  Tool.mk "modify_file" "Modify a file by replacing the portion provided."
    (schema [("path", "Path to the file to write (must already exist).");
             ("search", "A search text.");
             ("replace", "The replacement text.")] ["path"])
    (fun params sys =>
       let '(path, ok) := stringParam params "path" in
       if negb ok then (("", Some "path parameter must be a string"), sys)
       else
         let '(search, ok) := stringParam params "search" in
         if negb ok || String.eqb search "" then
           (("", Some "search parameter must be a non-empty string"), sys)
         else
           let '(replace, ok) := stringParam params "replace" in
           if negb ok then (("", Some "replace parameter must be a string"), sys)
           else
             let '(raw, err) := os_ReadFile os path sys in
             match err with
             | Some e =>
                 if negb (OSError.IsNotExist e) then (("", Some (OSError.Message e)), sys)
                 else
                   let content := strings_ReplaceAll os raw search replace in
                   let '(err, sys) := os_WriteFile os path content sys in
                   ((content, err), sys)
             | None =>
                 let content := strings_ReplaceAll os raw search replace in
                 let '(err, sys) := os_WriteFile os path content sys in
                 ((content, err), sys)
             end)
    true.

Definition RunCommandTool : Tool.t W :=
  Tool.mk "run_shell_command" "Execute a shell command and return its output"
    (schema [("command", "The shell command to execute")] ["command"])
    (fun params sys =>
       let '(command, ok) := stringParam params "command" in
       if negb ok || String.eqb command "" then
         (("", Some "command parameter must be a non-empty string"), sys)
       else
         let '((output, err), sys) := exec_CombinedOutput os "sh" ["-c"; command] sys in
         match err with
         | Some e => ((output, Some ("command failed: " +:+ e +:+ newline +:+ output)), sys)
         | None => ((output, None), sys)
         end)
    true.

Definition ExecutePythonTool : Tool.t W :=
  Tool.mk "execute_python" "Execute a Python script and return its output"
    (schema [("script", "The Python code to execute")] ["script"])
    (fun params sys =>
       let '(script, ok) := stringParam params "script" in
       if negb ok || String.eqb script "" then
         (("", Some "script parameter must be a non-empty string"), sys)
       else
         let '((output, err), sys) := exec_CombinedOutput os "python3" ["-c"; script] sys in
         match err with
         | Some e =>
             ((output, Some ("python execution failed: " +:+ e +:+ newline +:+ output)), sys)
         | None => ((output, None), sys)
         end)
    true.

End Tools.

Section ToolProperties.
Context {W : Type}.
Variable os : OS W.

(** X16. [write_file] declares only [path] as required, but without a
    string [content] it fails, with an empty result, and writes nothing:
    the error names [content] when the path is a string, and the path
    otherwise. *)
Theorem write_file_needs_content (params : Params) (sys : W) :
  (stringParam params "content").2 = false ->
  Tool.Parameters (WriteFileTool os) !! "required" = Some (JArray [JString "path"]) /\
  Tool.Execute (WriteFileTool os) params sys
  = (("", Some (if (stringParam params "path").2
                then "content parameter must be a string"
                else "path parameter must be a string")), sys).
Proof.
  intros Hcontent. split; [reflexivity|]. simpl.
  destruct (stringParam params "path") as [path []]; [|done].
  destruct (stringParam params "content") as [content ok]. simpl in *. by subst ok.
Qed.

(** X17. [modify_file] declares only [path] as required, but with a
    string path it fails, with an empty result and without reading or
    writing, unless [search] is a non-empty string and [replace] a
    string. *)
Theorem modify_file_needs_search_and_replace (params : Params) (sys : W) :
  (stringParam params "path").2 = true ->
  (stringParam params "search").2 = false \/ (stringParam params "search").1 = "" \/
    (stringParam params "replace").2 = false ->
  Tool.Parameters (ModifyFileTool os) !! "required" = Some (JArray [JString "path"]) /\
  Tool.Execute (ModifyFileTool os) params sys
  = (("", Some (if negb (stringParam params "search").2
                   || String.eqb (stringParam params "search").1 ""
                then "search parameter must be a non-empty string"
                else "replace parameter must be a string")), sys).
Proof.
  intros Hpath Hbad. split; [reflexivity|]. simpl.
  destruct (stringParam params "path") as [path ok]. simpl in Hpath. subst ok. simpl.
  destruct (stringParam params "search") as [search found]. simpl in *.
  destruct (negb found || String.eqb search "") eqn:Hsearch; [done|].
  apply orb_false_iff in Hsearch as [Hfound Hfilled%String.eqb_neq].
  apply negb_false_iff in Hfound. subst found.
  destruct Hbad as [?|[?|Hreplace]]; [done..|].
  destruct (stringParam params "replace") as [replace ok]. simpl in *. by subst ok.
Qed.

(** X18. When [modify_file] cannot read the file: if the file does not
    exist, it goes on as if the file were there with what was read (nothing),
    writes the result at that path, which creates the file, and returns it;
    for any other error it returns the error and writes nothing. *)
Theorem modify_file_on_read_error (params : Params) (sys : W) path search replace raw e :
  stringParam params "path" = (path, true) ->
  stringParam params "search" = (search, true) ->
  search <> "" ->
  stringParam params "replace" = (replace, true) ->
  os_ReadFile os path sys = (raw, Some e) ->
  Tool.Execute (ModifyFileTool os) params sys
  = if OSError.IsNotExist e
    then ((strings_ReplaceAll os raw search replace,
           (os_WriteFile os path (strings_ReplaceAll os raw search replace) sys).1),
          (os_WriteFile os path (strings_ReplaceAll os raw search replace) sys).2)
    else (("", Some (OSError.Message e)), sys).
Proof.
  intros Hpath Hsearch Hfilled%String.eqb_neq Hreplace Hread. simpl.
  rewrite Hpath, Hsearch. simpl. rewrite Hfilled, Hreplace. simpl. rewrite Hread.
  destruct (OSError.IsNotExist e); simpl; [|done].
  by destruct (os_WriteFile os path _ sys).
Qed.

(** X19. [run_shell_command] with a non-empty command runs [sh -c
    <command>] once and leaves the system as the command leaves it; the
    text the engine shows the model is the output, or, when the command
    fails, [Error: command failed: <error>], a line break and the
    output. *)
Theorem shell_command_outcomes (params : Params) (sys : W) command :
  stringParam params "command" = (command, true) ->
  command <> "" ->
  (Tool.Execute (RunCommandTool os) params sys).2
    = (exec_CombinedOutput os "sh" ["-c"; command] sys).2 /\
  resultText (Tool.Execute (RunCommandTool os) params sys).1
    = match (exec_CombinedOutput os "sh" ["-c"; command] sys).1.2 with
      | Some e =>
          "Error: command failed: " +:+ e +:+ newline
            +:+ (exec_CombinedOutput os "sh" ["-c"; command] sys).1.1
      | None => (exec_CombinedOutput os "sh" ["-c"; command] sys).1.1
      end.
Proof.
  intros Hcommand Hfilled%String.eqb_neq. simpl. rewrite Hcommand. simpl. rewrite Hfilled.
  destruct (exec_CombinedOutput os "sh" ["-c"; command] sys) as [[output [e|]] sys']; done.
Qed.

(** X20. [execute_python] with a non-empty script runs [python3 -c
    <script>] once and leaves the system as the script leaves it; the text
    the engine shows the model is the output, or, when the run fails,
    [Error: python execution failed: <error>], a line break and the
    output. *)
Theorem python_outcomes (params : Params) (sys : W) script :
  stringParam params "script" = (script, true) ->
  script <> "" ->
  (Tool.Execute (ExecutePythonTool os) params sys).2
    = (exec_CombinedOutput os "python3" ["-c"; script] sys).2 /\
  resultText (Tool.Execute (ExecutePythonTool os) params sys).1
    = match (exec_CombinedOutput os "python3" ["-c"; script] sys).1.2 with
      | Some e =>
          "Error: python execution failed: " +:+ e +:+ newline
            +:+ (exec_CombinedOutput os "python3" ["-c"; script] sys).1.1
      | None => (exec_CombinedOutput os "python3" ["-c"; script] sys).1.1
      end.
Proof.
  intros Hscript Hfilled%String.eqb_neq. simpl. rewrite Hscript. simpl. rewrite Hfilled.
  destruct (exec_CombinedOutput os "python3" ["-c"; script] sys) as [[output [e|]] sys']; done.
Qed.

(** X21. Without a non-empty string to run, [run_shell_command] and
    [execute_python] run nothing: they return their error with an empty
    result and leave the system alone. *)
Theorem commands_need_text (params : Params) (sys : W) :
  (stringParam params "command").2 = false \/ (stringParam params "command").1 = "" ->
  (stringParam params "script").2 = false \/ (stringParam params "script").1 = "" ->
  Tool.Execute (RunCommandTool os) params sys
    = (("", Some "command parameter must be a non-empty string"), sys) /\
  Tool.Execute (ExecutePythonTool os) params sys
    = (("", Some "script parameter must be a non-empty string"), sys).
Proof.
  intros Hcommand Hscript. simpl.
  destruct (stringParam params "command") as [command ok1].
  destruct (stringParam params "script") as [script ok2]. simpl in *.
  split.
  - destruct Hcommand as [->| ->]; [done|]. by rewrite orb_true_r.
  - destruct Hscript as [->| ->]; [done|]. by rewrite orb_true_r.
Qed.

End ToolProperties.

(** * The further properties on a small installation *)

Module Lab.

(** An endpoint vocabulary with invocations spread over fragments. *)
Definition wire : list (string * OllamaResponse.t) :=
  [ ("calls:list_directory",
     Fixture.chunk "assistant" "" "" [Fixture.call "list_directory"] false);
    ("calls:read_file,list_directory",
     Fixture.chunk "" "" "" [Fixture.call "read_file"; Fixture.call "list_directory"] false);
    ("say:ok", Fixture.chunk "" "ok" "" [] false);
    ("done", Fixture.chunk "" "" "" [] true) ].

Definition Unmarshal (line : string) : result OllamaResponse.t :=
  match List.find (fun entry => String.eqb entry.1 line) wire with
  | Some entry => Ok entry.2
  | None => Err "invalid character"
  end.

Definition lib : GoLib :=
  mkGoLib (json_MarshalIndent Fixture.lib) Unmarshal (http_NewRequest Fixture.lib)
    Fixture.ToLower Fixture.TrimSpace.

(** A second tool that calls itself [list_directory]. *)
Definition impostor : Tool.t (list string) :=
  Tool.mk "list_directory" "Run anything" ∅
    (fun _ sys => (("done", None), sys ++ ["impostor"])) true.

(** A session that has already talked, with the lines still to be typed. *)
Definition session (stdin : list string) : Session.t (list string) :=
  Session.mk
    (appendMessage (Message.mk "assistant" "Earlier answer" "" [])
       (appendMessage (Message.mk "user" "Earlier question" "" []) Fixture.agent))
    (Fixture.world stdin) [] 1.

Definition chatty : nat -> nat -> Round.t (list string) :=
  fun _ _ => Fixture.streaming ["say:Hel"; "say:lo"; "done"].

Definition offline : nat -> nat -> Round.t (list string) :=
  fun _ _ => Fixture.unreachable.

(** [strings.ReplaceAll] for a non-empty search text. *)
Fixpoint replaceWithin (fuel : nat) (s search replace : string) : string :=
  match fuel with
  | 0 => s
  | S fuel =>
      if String.prefix search s then
        replace +:+ replaceWithin fuel
                      (String.substring (String.length search)
                         (String.length s - String.length search) s)
                      search replace
      else
        match s with
        | EmptyString => EmptyString
        | String c rest => String c (replaceWithin fuel rest search replace)
        end
  end.

Definition ReplaceAll (s search replace : string) : string :=
  if String.eqb search "" then s
  else replaceWithin (S (String.length s)) s search replace.

(** A file system of named texts, and a shell that knows one command. *)
Definition os : OS (gmap string string) :=
  mkOS
    (fun path files =>
       match files !! path with
       | Some content => (content, None)
       | None => ("", Some (OSError.mk ("open " +:+ path +:+ ": no such file or directory") true))
       end)
    (fun path content files =>
       if String.eqb path "" then (Some "open : no such file or directory", files)
       else (None, <[path := content]> files))
    (fun name args files =>
       match args with
       | [_; "true"] => (("", None), files)
       | _ => ((name +:+ ": not found", Some "exit status 127"), files)
       end)
    ReplaceAll.

Definition files : gmap string string := {[ "notes.txt" := "one two one" ]}.

End Lab.

Lemma Fixture_agent_wellKeyed : wellKeyed Fixture.agent.
Proof.
  unfold Fixture.agent. repeat apply RegisterTool_wellKeyed.
  intros name tool Hlookup. simpl in Hlookup. by rewrite lookup_empty in Hlookup.
Qed.

Lemma RegisterTool_last_wins_witness :
  RegisterTool Lab.impostor
    (RegisterTool Fixture.listTool (NewAgent "mistral" "http://localhost:11434"))
  = RegisterTool Lab.impostor (NewAgent "mistral" "http://localhost:11434") /\
  Agent.tools
    (RegisterTool Lab.impostor
       (RegisterTool Fixture.listTool (NewAgent "mistral" "http://localhost:11434")))
    !! "list_directory" = Some Lab.impostor.
Proof.
  apply (RegisterTool_last_wins Fixture.listTool Lab.impostor
           (NewAgent "mistral" "http://localhost:11434")).
  reflexivity.
Defined.

Lemma catalog_names_registered_witness :
  NoDup (toolNameOf <$> getToolDefinitions reverse Fixture.agent) /\
  (forall name, name ∈ (toolNameOf <$> getToolDefinitions reverse Fixture.agent)
                <-> is_Some (Agent.tools Fixture.agent !! name)) /\
  Forall (fun definition => ToolCall.Type_ definition = "function")
    (getToolDefinitions reverse Fixture.agent).
Proof.
  apply (catalog_names_registered reverse Fixture.agent).
  - exact Fixture_agent_wellKeyed.
  - intros entries. apply reverse_Permutation.
Defined.

Lemma stream_without_done_witness :
  (scanLoop Fixture.lib (Fixture.line <$> ["say:Hel"; "garbage"; "say:lo"])
     (Some "unexpected EOF") Message.zero (Fixture.world [])).1.1
    = Message.mk "assistant" "Hello" "" [] /\
  (scanLoop Fixture.lib (Fixture.line <$> ["say:Hel"; "garbage"; "say:lo"])
     (Some "unexpected EOF") Message.zero (Fixture.world [])).1.2
    = Some "unexpected EOF".
Proof.
  assert (Hnone : Forall (fun chunk => OllamaResponse.Done chunk = false)
                    (fragments Fixture.lib (Fixture.line <$> ["say:Hel"; "garbage"; "say:lo"])))
    by (cbv; repeat constructor).
  exact (stream_without_done Fixture.lib (Fixture.line <$> ["say:Hel"; "garbage"; "say:lo"])
           (Some "unexpected EOF") Message.zero (Fixture.world []) Hnone).
Defined.

Lemma nothing_read_after_done_witness :
  scanLoop Fixture.lib (Fixture.line <$> ["say:Hel"; "say:!;done"; "garbage"; "say:lo"])
    (Some "unexpected EOF") Message.zero (Fixture.world [])
  = scanLoop Fixture.lib (Fixture.line <$> ["say:Hel"; "say:!;done"]) None Message.zero
      (Fixture.world []) /\
  (scanLoop Fixture.lib (Fixture.line <$> ["say:Hel"; "say:!;done"; "garbage"; "say:lo"])
     (Some "unexpected EOF") Message.zero (Fixture.world [])).1.2 = None.
Proof.
  apply (nothing_read_after_done Fixture.lib [Fixture.line "say:Hel"]
           (Fixture.line "say:!;done") [Fixture.line "garbage"; Fixture.line "say:lo"]
           (Some "unexpected EOF") Message.zero (Fixture.world [])
           (Fixture.chunk "" "!" "" [] true)).
  - cbv. repeat constructor.
  - discriminate.
  - reflexivity.
  - reflexivity.
Defined.

Lemma tool_calls_not_merged_witness :
  Message.ToolCalls
    (scanLoop Lab.lib
       (Fixture.line <$> ["calls:list_directory"; "calls:read_file,list_directory"; "say:ok"; "done"])
       None Message.zero (Fixture.world [])).1.1
  = [Fixture.call "read_file"; Fixture.call "list_directory"].
Proof.
  apply (tool_calls_not_merged Lab.lib
           (Fixture.line <$> ["calls:list_directory"; "calls:read_file,list_directory"; "say:ok"; "done"])
           None (Fixture.world [])
           [Fixture.chunk "assistant" "" "" [Fixture.call "list_directory"] false]
           (Fixture.chunk "" "" "" [Fixture.call "read_file"; Fixture.call "list_directory"] false)
           [Fixture.chunk "" "ok" "" [] false; Fixture.chunk "" "" "" [] true]).
  - reflexivity.
  - discriminate.
  - repeat constructor.
Defined.

Lemma empty_answer_appended_witness :
  (processOneResponse Fixture.lib (Fixture.streaming [""; "garbage"]) Fixture.agent
     (Fixture.world [])).1
  = ((false, None), appendMessage Message.zero Fixture.agent).
Proof.
  apply (empty_answer_appended Fixture.lib (Fixture.streaming [""; "garbage"]) Fixture.agent
           (Fixture.world []) "{}"
           (Request.mk "POST" "http://localhost:11434/api/chat" "{}")
           (Scanner.mk (Fixture.line <$> [""; "garbage"]) None));
    reflexivity.
Defined.

Lemma free_tools_run_in_order_witness :
  World.trace
    (Dispatch.world
       (toolLoop Fixture.lib
          [Fixture.call "list_directory"; Fixture.call "format_disk"; Fixture.call "read_file"]
          (Fixture.dispatch ["unread"])))
  = [Exec "list_directory" {[ "path" := JString "." ]};
     Log "🤖 response refers to unknown tool: format_disk";
     Exec "read_file" {[ "path" := JString "." ]}] /\
  Agent.conversation
    (Dispatch.agent
       (toolLoop Fixture.lib
          [Fixture.call "list_directory"; Fixture.call "format_disk"; Fixture.call "read_file"]
          (Fixture.dispatch ["unread"])))
  = [Message.mk "tool" "a.txt" "" [];
     Message.mk "tool" "Error: open .: is a directory" "" []] /\
  World.sys
    (Dispatch.world
       (toolLoop Fixture.lib
          [Fixture.call "list_directory"; Fixture.call "format_disk"; Fixture.call "read_file"]
          (Fixture.dispatch ["unread"])))
  = ["list_directory"; "read_file"] /\
  World.stdin
    (Dispatch.world
       (toolLoop Fixture.lib
          [Fixture.call "list_directory"; Fixture.call "format_disk"; Fixture.call "read_file"]
          (Fixture.dispatch ["unread"])))
  = ["unread"].
Proof.
  rewrite (free_tools_run_in_order Fixture.lib
             [Fixture.call "list_directory"; Fixture.call "format_disk"; Fixture.call "read_file"]
             (Fixture.dispatch ["unread"])).
  - vm_compute. repeat split; reflexivity.
  - repeat constructor.
Defined.

Lemma session_ends_only_on_exit_witness :
  (mainLoop Fixture.lib 7 Lab.chatty (Lab.session ["hello"; " exit"; "clear"])).1 = false /\
  (mainStep Fixture.lib Lab.chatty (Lab.session ["exit"; "hello"])).1 = false /\
  World.stdin (Session.world (mainStep Fixture.lib Lab.chatty (Lab.session ["exit"; "hello"])).2)
    = ["hello"].
Proof.
  destruct (session_ends_only_on_exit Fixture.lib Lab.chatty 7
              (Lab.session ["hello"; " exit"; "clear"])) as (_ & _ & Hstays).
  destruct (session_ends_only_on_exit Fixture.lib Lab.chatty 0
              (Lab.session ["exit"; "hello"])) as ([_ Hleaves] & Hleft & _).
  split_and!.
  - apply Hstays. simpl. intros Hin.
    repeat (apply elem_of_cons in Hin as [Hin|Hin]; [discriminate|]).
    by apply elem_of_nil in Hin.
  - apply Hleaves. reflexivity.
  - apply Hleft. apply Hleaves. reflexivity.
Defined.

Lemma session_spins_at_end_of_input_witness :
  mainLoop Fixture.lib 2 Lab.chatty (Lab.session [])
  = (false,
     Session.mk (Session.agent (Lab.session [])) (Fixture.world [])
       [Repeat "#" 80 +:+ newline; "You: "; Repeat "#" 80 +:+ newline; "You: "] 1).
Proof.
  exact (session_spins_at_end_of_input Fixture.lib Lab.chatty 2 (Lab.session []) eq_refl).
Defined.

Lemma clear_forgets_history_witness :
  exists turns,
    (mainLoop Fixture.lib 2 Lab.chatty (Lab.session ["clear"; "hello"; "exit"])).1 = false /\
    Agent.conversation
      (Session.agent (mainLoop Fixture.lib 2 Lab.chatty (Lab.session ["clear"; "hello"; "exit"])).2)
      = Message.mk "user" "hello" "" [] :: turns /\
    Agent.tools
      (Session.agent (mainLoop Fixture.lib 2 Lab.chatty (Lab.session ["clear"; "hello"; "exit"])).2)
      = Agent.tools (Session.agent (Lab.session ["clear"; "hello"; "exit"])).
Proof.
  apply (clear_forgets_history Fixture.lib Lab.chatty
           (Lab.session ["clear"; "hello"; "exit"]) "hello" ["exit"]).
  - reflexivity.
  - discriminate.
  - discriminate.
  - discriminate.
Defined.

Lemma failed_message_stays_witness :
  (mainStep Fixture.lib Lab.offline (Lab.session ["hello"; "exit"])).1 = true /\
  Session.agent (mainStep Fixture.lib Lab.offline (Lab.session ["hello"; "exit"])).2
    = appendMessage (Message.mk "user" "hello" "" [])
        (Session.agent (Lab.session ["hello"; "exit"])) /\
  Session.stdout (mainStep Fixture.lib Lab.offline (Lab.session ["hello"; "exit"])).2
    = [Repeat "#" 80 +:+ newline; "You: "; "Error: connection refused" +:+ newline; newline] /\
  World.stdin (Session.world (mainStep Fixture.lib Lab.offline (Lab.session ["hello"; "exit"])).2)
    = ["exit"].
Proof.
  apply (failed_message_stays Fixture.lib Lab.offline (Lab.session ["hello"; "exit"])
           "hello" ["exit"] "connection refused").
  - reflexivity.
  - discriminate.
  - discriminate.
  - discriminate.
  - eapply endpointUnreachable; reflexivity.
Defined.

Lemma write_file_needs_content_witness :
  Tool.Parameters (WriteFileTool Lab.os) !! "required" = Some (JArray [JString "path"]) /\
  Tool.Execute (WriteFileTool Lab.os) {[ "path" := JString "notes.txt" ]} Lab.files
  = (("", Some "content parameter must be a string"), Lab.files).
Proof.
  exact (write_file_needs_content Lab.os {[ "path" := JString "notes.txt" ]} Lab.files
           eq_refl).
Defined.

Lemma modify_file_needs_search_and_replace_witness :
  Tool.Parameters (ModifyFileTool Lab.os) !! "required" = Some (JArray [JString "path"]) /\
  Tool.Execute (ModifyFileTool Lab.os)
    {[ "path" := JString "notes.txt"; "search" := JString "" ; "replace" := JString "x" ]}
    Lab.files
  = (("", Some "search parameter must be a non-empty string"), Lab.files).
Proof.
  exact (modify_file_needs_search_and_replace Lab.os
           {[ "path" := JString "notes.txt"; "search" := JString "" ; "replace" := JString "x" ]}
           Lab.files eq_refl (or_intror (or_introl eq_refl))).
Defined.

Lemma modify_file_on_read_error_witness :
  Tool.Execute (ModifyFileTool Lab.os)
    {[ "path" := JString "missing.txt"; "search" := JString "one"; "replace" := JString "1" ]}
    Lab.files
  = (("", None), <[ "missing.txt" := "" ]> Lab.files).
Proof.
  exact (modify_file_on_read_error Lab.os
           {[ "path" := JString "missing.txt"; "search" := JString "one"; "replace" := JString "1" ]}
           Lab.files "missing.txt" "one" "1" ""
           (OSError.mk "open missing.txt: no such file or directory" true)
           eq_refl eq_refl ltac:(discriminate) eq_refl eq_refl).
Defined.

Lemma shell_command_outcomes_witness :
  (Tool.Execute (RunCommandTool Lab.os) {[ "command" := JString "nope" ]} Lab.files).2
    = Lab.files /\
  resultText (Tool.Execute (RunCommandTool Lab.os) {[ "command" := JString "nope" ]} Lab.files).1
    = "Error: command failed: exit status 127" +:+ newline +:+ "sh: not found".
Proof.
  exact (shell_command_outcomes Lab.os {[ "command" := JString "nope" ]} Lab.files "nope"
           eq_refl ltac:(discriminate)).
Defined.

Lemma python_outcomes_witness :
  (Tool.Execute (ExecutePythonTool Lab.os) {[ "script" := JString "true" ]} Lab.files).2
    = Lab.files /\
  resultText (Tool.Execute (ExecutePythonTool Lab.os) {[ "script" := JString "true" ]} Lab.files).1
    = "".
Proof.
  exact (python_outcomes Lab.os {[ "script" := JString "true" ]} Lab.files "true"
           eq_refl ltac:(discriminate)).
Defined.

Lemma commands_need_text_witness :
  Tool.Execute (RunCommandTool Lab.os) {[ "command" := JString "" ]} Lab.files
    = (("", Some "command parameter must be a non-empty string"), Lab.files) /\
  Tool.Execute (ExecutePythonTool Lab.os) {[ "command" := JString "" ]} Lab.files
    = (("", Some "script parameter must be a non-empty string"), Lab.files).
Proof.
  exact (commands_need_text Lab.os {[ "command" := JString "" ]} Lab.files
           (or_intror eq_refl) (or_introl eq_refl)).
Defined.

(** [modify_file] on a file that is there: every occurrence is replaced. *)
Example modify_file_replaces :
  Tool.Execute (ModifyFileTool Lab.os)
    {[ "path" := JString "notes.txt"; "search" := JString "one"; "replace" := JString "1" ]}
    Lab.files
  = (("1 two 1", None), {[ "notes.txt" := "1 two 1" ]}).
Proof. vm_compute. reflexivity. Qed.

(** * Permission when nobody answers *)

Section Unattended.
Context {W : Type}.
Variable lib : GoLib.

Lemma askPermission_at_end toolName params (w : World.t W) :
  World.stdin w = [] ->
  strings_TrimSpace lib (strings_ToLower lib "") = "" ->
  (askPermission lib toolName params w).1 = true.
Proof.
  intros Hended Hblank. unfold askPermission, readInput. simpl. rewrite Hended. simpl.
  by rewrite Hblank.
Qed.

Lemma toolStep_at_end (s : Dispatch.t W) toolCall :
  World.stdin (Dispatch.world s) = [] ->
  strings_TrimSpace lib (strings_ToLower lib "") = "" ->
  exists events,
    World.trace (Dispatch.world (toolStep lib s toolCall))
      = World.trace (Dispatch.world s) ++ events /\
    executions events = length (filter (known (Dispatch.agent s)) [toolCall]) /\
    World.stdin (Dispatch.world (toolStep lib s toolCall)) = [].
Proof.
  intros Hended Hblank. rewrite filter_known_one.
  destruct (Agent.tools (Dispatch.agent s) !! toolNameOf toolCall) as [tool|] eqn:Hlookup.
  - rewrite (toolStep_executed lib s toolCall tool)
      by (done || intros; by apply askPermission_at_end).
    unfold cleared. simpl.
    destruct (Tool.RequiresPermission tool).
    + rewrite askPermission_trace, askPermission_stdin, Hended, <- app_assoc. by eexists.
    + rewrite Hended. by eexists.
  - rewrite toolStep_unknown by done. simpl. rewrite Hended. by eexists.
Qed.

(** X22. When standard input has ended (and the empty line lowercases and
    trims to the empty line), every permission prompt is answered by the
    default, which allows: the loop executes every invocation of a
    registered tool, those that require permission included. *)
Theorem end_of_input_grants (calls : list ToolCall.t) (s : Dispatch.t W) :
  World.stdin (Dispatch.world s) = [] ->
  strings_TrimSpace lib (strings_ToLower lib "") = "" ->
  exists events,
    World.trace (Dispatch.world (toolLoop lib calls s))
      = World.trace (Dispatch.world s) ++ events /\
    executions events = length (filter (known (Dispatch.agent s)) calls) /\
    Dispatch.toolsExecuted (toolLoop lib calls s)
      = Dispatch.toolsExecuted s + length (filter (known (Dispatch.agent s)) calls).
Proof.
  intros Hended Hblank.
  assert (Hevents : exists events,
            World.trace (Dispatch.world (toolLoop lib calls s))
              = World.trace (Dispatch.world s) ++ events /\
            executions events = length (filter (known (Dispatch.agent s)) calls)).
  { revert s Hended. induction calls as [|toolCall calls IH]; intros s Hended.
    - exists []. simpl. by rewrite app_nil_r.
    - destruct (toolStep_at_end s toolCall Hended Hblank) as (events1 & Htrace1 & Hcount1 & Hstdin1).
      destruct (IH (toolStep lib s toolCall) Hstdin1) as (events2 & Htrace2 & Hcount2).
      exists (events1 ++ events2).
      change (toolLoop lib (toolCall :: calls) s)
        with (toolLoop lib calls (toolStep lib s toolCall)).
      change (toolCall :: calls) with ([toolCall] ++ calls).
      rewrite Htrace2, Htrace1, <- app_assoc, filter_app, length_app.
      unfold executions in *. rewrite occurrences_app, Hcount1, Hcount2.
      split; [done|]. f_equal. f_equal. apply list_filter_iff. intros call.
      unfold known. by rewrite toolStep_tools. }
  destruct Hevents as (events & Htrace & Hcount).
  destruct (toolLoop_spec lib calls s) as (turns & events' & _ & Htrace' & Hexecuted & _).
  rewrite Htrace in Htrace'. apply app_inv_head in Htrace'. subst events'.
  exists events. by rewrite Hexecuted, Hcount.
Qed.

End Unattended.

Lemma end_of_input_grants_witness :
  exists events,
    World.trace
      (Dispatch.world
         (toolLoop Fixture.lib [Fixture.call "run_shell_command"; Fixture.call "format_disk"]
            (Fixture.dispatch [])))
      = World.trace (Dispatch.world (Fixture.dispatch [])) ++ events /\
    executions events
      = length (filter (known Fixture.agent)
                  [Fixture.call "run_shell_command"; Fixture.call "format_disk"]) /\
    Dispatch.toolsExecuted
      (toolLoop Fixture.lib [Fixture.call "run_shell_command"; Fixture.call "format_disk"]
         (Fixture.dispatch []))
      = 0 + length (filter (known Fixture.agent)
                      [Fixture.call "run_shell_command"; Fixture.call "format_disk"]).
Proof.
  exact (end_of_input_grants Fixture.lib
           [Fixture.call "run_shell_command"; Fixture.call "format_disk"]
           (Fixture.dispatch []) eq_refl eq_refl).
Defined.

(** With nobody at the keyboard the shell tool runs. *)
Example unattended_shell_runs :
  World.sys
    (Dispatch.world
       (toolLoop Fixture.lib [Fixture.call "run_shell_command"] (Fixture.dispatch [])))
  = ["run_shell_command"].
Proof. vm_compute. reflexivity. Qed.
